(** * snapm: snapshot manager, verification of the domain model and the
      command layer.

    Shallow embedding of [snapm/_snapm.py] (exceptions, [Selection],
    [SnapStatus], [SnapshotSet], [Snapshot]) and of the procedural interface
    of [snapm/command.py] ([create_snapset], [delete_snapset],
    [rollback_snapset]). *)

From Stdlib Require Import ZArith Lia Bool List Ascii.
From stdpp Require Import base option list strings pretty gmap finite.

Local Open Scope string_scope.
Local Open Scope list_scope.

(** ** The Python runtime the code relies on *)

Module Py.

(** Exception classes.  The [Snapm*] classes are declared in [_snapm.py]; the
    others are the builtins the code raises, catches or inherits. *)
Inductive exc_class : Type :=
  | SnapmError
  | SnapmCalloutError
  | SnapmNoSpaceError
  | SnapmNoProviderError
  | SnapmExistsError
  | SnapmPathError
  | SnapmNotFoundError
  | SnapmInvalidIdentifierError
  | ValueError
  | TypeError
  | OSError
  | NotImplementedError
  | RuntimeError.

Global Instance exc_class_eq_dec : EqDecision exc_class.
Proof. solve_decision. Defined.

(** [class X(SnapmError)]: every Snapm class derives from [SnapmError]
    directly, the builtins do not. *)
Definition is_snapm_class (c : exc_class) : bool :=
  match c with
  | SnapmError | SnapmCalloutError | SnapmNoSpaceError | SnapmNoProviderError
  | SnapmExistsError | SnapmPathError | SnapmNotFoundError
  | SnapmInvalidIdentifierError => true
  | _ => false
  end.

(** [issubclass c base] for the classes above. *)
Definition issubclass (c base : exc_class) : bool :=
  bool_decide (c = base)
  || (bool_decide (base = SnapmError) && is_snapm_class c).

(** An exception instance: its class and its message ([str(err)]). *)
Record exn : Type := Exn { exn_class : exc_class; exn_msg : string }.

Global Instance exn_eq_dec : EqDecision exn.
Proof. solve_decision. Defined.

Definition isinstance (e : exn) (base : exc_class) : bool :=
  issubclass (exn_class e) base.

(** [except (c1, c2, ...)] *)
Definition caught_by (e : exn) (classes : list exc_class) : bool :=
  existsb (isinstance e) classes.

(** The outcome of a call: a value, or a raised exception. *)
Inductive result (A : Type) : Type :=
  | Ok (a : A)
  | Raise (e : exn).
Global Arguments Ok {A} a.
Global Arguments Raise {A} e.

(** The builtins [any] and [all] over the truth values of an iterable. *)
Definition any (bs : list bool) : bool := existsb id bs.
Definition all (bs : list bool) : bool := forallb id bs.

(** [sep.join(strs)] *)
Fixpoint join (sep : string) (strs : list string) : string :=
  match strs with
  | [] => ""
  | [s] => s
  | s :: rest => s +:+ sep +:+ join sep rest
  end.

(** [x in xs] for a list of strings. *)
Definition str_in (x : string) (xs : list string) : bool :=
  bool_decide (x ∈ xs).

(** [str(n)] for an [int]: decimal digits, with a leading minus sign for a
    negative number. *)
Definition str_int (n : Z) : string := pretty n.

(** The truth value of an optional string: [None] and [""] are false. *)
Definition truthy (s : option string) : bool :=
  match s with
  | Some s => negb (String.eqb s "")
  | None => false
  end.

(** [s.split(sep)] for a separator of one character. *)
Fixpoint split (sep : Ascii.ascii) (s : string) : list string :=
  match s with
  | EmptyString => [""]
  | String c rest =>
      if Ascii.eqb c sep then "" :: split sep rest
      else match split sep rest with
           | first :: others => String c first :: others
           | [] => [String c ""]
           end
  end.

(** [s.startswith(prefix)] *)
Fixpoint startswith (s prefix : string) {struct prefix} : bool :=
  match prefix with
  | EmptyString => true
  | String a prefix' =>
      match s with
      | EmptyString => false
      | String b s' => Ascii.eqb a b && startswith s' prefix'
      end
  end.

(** [s[1:]] *)
Definition from_1 (s : string) : string :=
  match s with
  | EmptyString => ""
  | String _ rest => rest
  end.

Definition hex_char (d : Z) : Ascii.ascii :=
  match String.get (Z.to_nat d) "0123456789abcdef" with
  | Some c => c
  | None => "0"%char
  end.

Fixpoint hex_digits (fuel : nat) (n : Z) (acc : string) : string :=
  match fuel with
  | O => acc
  | S fuel' =>
      let acc' := String (hex_char (n mod 16)) acc in
      if (n / 16 =? 0)%Z then acc' else hex_digits fuel' (n / 16)%Z acc'
  end.

(** [format(n, "x")]: lower-case hexadecimal digits, with a leading minus
    sign for a negative number. *)
Definition format_x (n : Z) : string :=
  if (n <? 0)%Z
  then "-" +:+ hex_digits (S (Z.to_nat (Z.log2 (- n)))) (- n) ""
  else hex_digits (S (Z.to_nat (Z.log2 n))) n "".

(** The code of a character ([ord(c)] for a byte of the UTF-8 text). *)
Definition ord (c : Ascii.ascii) : N := Ascii.N_of_ascii c.

(** The characters at which [str.splitlines] ends a line and that are one
    byte long: [\n], [\v], [\f], [\r] and the separators [\x1c], [\x1d],
    [\x1e]. *)
Definition line_break (c : Ascii.ascii) : bool :=
  bool_decide (ord c ∈ [10; 11; 12; 13; 28; 29; 30]%N).

(** [s.splitlines()], with [line] the part of the current line already
    read.  Besides the one-byte boundaries, of which [\r\n] counts once, a
    line ends at [\x85] (bytes [C2 85]) and at [U+2028] and [U+2029] (bytes
    [E2 80 A8] and [E2 80 A9]).  A last line without a boundary is kept
    unless it is empty. *)
Fixpoint splitlines_from (s : string) (line : string) : list string :=
  match s with
  | EmptyString => if String.eqb line "" then [] else [line]
  | String c rest =>
      if line_break c
      then
        match rest with
        | String c' rest' =>
            if (ord c =? 13)%N && (ord c' =? 10)%N
            then line :: splitlines_from rest' ""
            else line :: splitlines_from rest ""
        | EmptyString => line :: splitlines_from rest ""
        end
      else
        match rest with
        | String c1 (String c2 rest2 as rest1) =>
            if (ord c =? 194)%N && (ord c1 =? 133)%N
            then line :: splitlines_from rest1 ""
            else if (ord c =? 226)%N && (ord c1 =? 128)%N
                    && ((ord c2 =? 168)%N || (ord c2 =? 169)%N)
            then line :: splitlines_from rest2 ""
            else splitlines_from rest (line +:+ String c "")
        | String c1 EmptyString =>
            if (ord c =? 194)%N && (ord c1 =? 133)%N
            then [line]
            else splitlines_from rest (line +:+ String c "")
        | EmptyString => splitlines_from rest (line +:+ String c "")
        end
  end.

Definition splitlines (s : string) : list string := splitlines_from s "".

(** [s] holds no line boundary of [str.splitlines]: none of the one-byte
    boundaries and none of the encodings of [\x85], [U+2028] and [U+2029]. *)
Fixpoint no_line_break (s : string) : bool :=
  match s with
  | EmptyString => true
  | String c rest =>
      negb (line_break c)
      && match rest with
         | String c1 rest1 =>
             negb ((ord c =? 194)%N && (ord c1 =? 133)%N)
             && match rest1 with
                | String c2 _ =>
                    negb ((ord c =? 226)%N && (ord c1 =? 128)%N
                          && ((ord c2 =? 168)%N || (ord c2 =? 169)%N))
                | EmptyString => true
                end
         | EmptyString => true
         end
      && no_line_break rest
  end.

(** [s.rstrip("\n")] *)
Fixpoint rstrip_newlines (s : string) : string :=
  match s with
  | EmptyString => ""
  | String c rest =>
      let rest' := rstrip_newlines rest in
      if String.eqb rest' "" && (ord c =? 10)%N then "" else String c rest'
  end.

(** [n * " "]: nothing for a count that is not positive. *)
Definition spaces (n : Z) : string :=
  String.concat "" (repeat " " (Z.to_nat n)).

End Py.
Import Py.

(** ** [hashlib.sha1] and [uuid.uuid5] of the standard library (RFC 3174,
       RFC 4122), on which the identities of sets and snapshots are built *)

Module PyUUID.

Local Open Scope Z_scope.

(** [name.encode("utf-8")]: a string is held as its UTF-8 bytes. *)
Fixpoint encode (s : string) : list Z :=
  match s with
  | EmptyString => []
  | String c rest => Z.of_N (Ascii.N_of_ascii c) :: encode rest
  end.

Definition mask32 : Z := 0xFFFFFFFF.
Definition add32 (x y : Z) : Z := Z.land (x + y) mask32.
Definition rotl (n x : Z) : Z :=
  Z.land (Z.lor (Z.shiftl x n) (Z.shiftr x (32 - n))) mask32.
Definition not32 (x : Z) : Z := Z.lxor x mask32.

(** [int.from_bytes(bs, "big")] *)
Definition from_bytes (bs : list Z) : Z :=
  fold_left (fun acc b => Z.lor (Z.shiftl acc 8) (Z.land b 255)) bs 0.

(** [n.to_bytes(len, "big")] *)
Fixpoint to_bytes (len : nat) (n : Z) : list Z :=
  match len with
  | O => []
  | S len' => to_bytes len' (Z.shiftr n 8) ++ [Z.land n 255]
  end.

(** Message padding: a one bit, zeros up to 56 mod 64, and the bit length
    as a 64-bit big-endian integer. *)
Definition pad (msg : list Z) : list Z :=
  let l := Z.of_nat (length msg) in
  let zeros := Z.to_nat ((55 - l) mod 64) in
  msg ++ [0x80] ++ repeat 0 zeros ++ to_bytes 8 (8 * l).

Fixpoint chunks (fuel : nat) (n : nat) (bs : list Z) : list (list Z) :=
  match fuel with
  | O => []
  | S fuel' =>
      match bs with
      | [] => []
      | _ => firstn n bs :: chunks fuel' n (skipn n bs)
      end
  end.

(** The message schedule, most recent word first. *)
Fixpoint expand (n : nat) (w : list Z) : list Z :=
  match n with
  | O => w
  | S n' =>
      let x := Z.lxor (Z.lxor (nth 2 w 0) (nth 7 w 0))
                      (Z.lxor (nth 13 w 0) (nth 15 w 0)) in
      expand n' (rotl 1 x :: w)
  end.

Definition schedule (block : list Z) : list Z :=
  rev (expand 64 (rev (map from_bytes (chunks 16 4 block)))).

Definition round_f (t : nat) (b c d : Z) : Z :=
  if (t <? 20)%nat then Z.lor (Z.land b c) (Z.land (not32 b) d)
  else if (t <? 40)%nat then Z.lxor (Z.lxor b c) d
  else if (t <? 60)%nat then Z.lor (Z.lor (Z.land b c) (Z.land b d)) (Z.land c d)
  else Z.lxor (Z.lxor b c) d.

Definition round_k (t : nat) : Z :=
  if (t <? 20)%nat then 0x5A827999
  else if (t <? 40)%nat then 0x6ED9EBA1
  else if (t <? 60)%nat then 0x8F1BBCDC
  else 0xCA62C1D6.

Definition state : Type := Z * Z * Z * Z * Z.

Definition round (st : state) (tw : nat * Z) : state :=
  let '(a, b, c, d, e) := st in
  let '(t, w) := tw in
  let temp :=
    add32 (add32 (add32 (add32 (rotl 5 a) (round_f t b c d)) e) (round_k t)) w in
  (temp, a, rotl 30 b, c, d).

Definition compress (h : state) (block : list Z) : state :=
  let '(h0, h1, h2, h3, h4) := h in
  let '(a, b, c, d, e) :=
    fold_left round (combine (seq 0 80) (schedule block)) h in
  (add32 h0 a, add32 h1 b, add32 h2 c, add32 h3 d, add32 h4 e).

Definition sha1_init : state :=
  (0x67452301, 0xEFCDAB89, 0x98BADCFE, 0x10325476, 0xC3D2E1F0).

(** [hashlib.sha1(msg).digest()] *)
Definition sha1 (msg : list Z) : list Z :=
  let padded := pad msg in
  let '(h0, h1, h2, h3, h4) :=
    fold_left compress (chunks (length padded) 64 padded) sha1_init in
  to_bytes 4 h0 ++ to_bytes 4 h1 ++ to_bytes 4 h2 ++ to_bytes 4 h3
    ++ to_bytes 4 h4.

(** [uuid.UUID]: a UUID is its 128-bit integer ([UUID.int]); two UUIDs
    compare equal when these integers do. *)
Definition UUID : Type := Z.

(** [UUID(bytes=bs, version=v)]: the variant and version bits are forced. *)
Definition UUID_of_bytes (bs : list Z) (version : Z) : UUID :=
  let int := from_bytes bs in
  let int := Z.land int (Z.lnot (Z.shiftl 0xc000 48)) in
  let int := Z.lor int (Z.shiftl 0x8000 48) in
  let int := Z.land int (Z.lnot (Z.shiftl 0xf000 64)) in
  Z.lor int (Z.shiftl version 76).

(** [uuid.uuid5(namespace, name)] *)
Definition uuid5 (namespace : UUID) (name : string) : UUID :=
  let hash := sha1 (to_bytes 16 namespace ++ encode name) in
  UUID_of_bytes (firstn 16 hash) 5.

Definition hex_digit (d : Z) : string :=
  String.substring (Z.to_nat d) 1 "0123456789abcdef".

(** The [n] low hexadecimal digits of [x], most significant first. *)
Fixpoint hex (n : nat) (x : Z) : string :=
  match n with
  | O => ""
  | S n' => hex n' (Z.shiftr x 4) +:+ hex_digit (Z.land x 15)
  end.

(** [str(u)] for a UUID: [8-4-4-4-12] hexadecimal digits. *)
Definition UUID_str (u : UUID) : string :=
  let h := hex 32 u in
  String.substring 0 8 h +:+ "-" +:+ String.substring 8 4 h +:+ "-"
  +:+ String.substring 12 4 h +:+ "-" +:+ String.substring 16 4 h +:+ "-"
  +:+ String.substring 20 12 h.

End PyUUID.
Import PyUUID.

(** ** Programs with calls into collaborators

    A method that calls into a plugin or into the manager is a tree of such
    calls: each call either returns a value or raises, and the continuation
    receives the outcome.  [try]/[except] and logging are part of the
    tree. *)

Module Eff.

Section Prog.
Context (call : Type) (ret_ty : call → Type).

Inductive prog (A : Type) : Type :=
  | Ret (a : A)
  | Throw (e : exn)
  | Log (msg : string) (k : prog A)
  | Vis (c : call) (k : result (ret_ty c) → prog A).

Global Arguments Ret {A} a.
Global Arguments Throw {A} e.
Global Arguments Log {A} msg k.
Global Arguments Vis {A} c k.

Fixpoint bind {A B} (p : prog A) (f : A → prog B) : prog B :=
  match p with
  | Ret a => f a
  | Throw e => Throw e
  | Log msg k => Log msg (bind k f)
  | Vis c k => Vis c (fun r => bind (k r) f)
  end.

(** [try: p except classes as err: handler err] *)
Fixpoint try_except {A} (p : prog A) (classes : list exc_class)
    (handler : exn → prog A) : prog A :=
  match p with
  | Ret a => Ret a
  | Throw e => if caught_by e classes then handler e else Throw e
  | Log msg k => Log msg (try_except k classes handler)
  | Vis c k => Vis c (fun r => try_except (k r) classes handler)
  end.

(** A call whose exception, if any, propagates. *)
Definition perform (c : call) : prog (ret_ty c) :=
  Vis c (fun r => match r with Ok v => Ret v | Raise e => Throw e end).

(** [_log_error(msg)] *)
Definition log_error (msg : string) : prog unit := Log msg (Ret tt).

(** What a run leaves behind: the calls made, each with the exception it
    raised if it did, and the messages logged, in order. *)
Inductive item : Type :=
  | Called (c : call) (raised : option exn)
  | Logged (msg : string).

Definition raised_of {A} (r : result A) : option exn :=
  match r with Ok _ => None | Raise e => Some e end.

(** The collaborators: how each call answers in a given world. *)
Definition handler (W : Type) : Type := ∀ c : call, W → result (ret_ty c) * W.

Fixpoint run {A W} (p : prog A) (h : handler W) (w : W)
    : result A * W * list item :=
  match p with
  | Ret a => (Ok a, w, [])
  | Throw e => (Raise e, w, [])
  | Log msg k =>
      let '(r, w', t) := run k h w in (r, w', Logged msg :: t)
  | Vis c k =>
      let '(r, w1) := h c w in
      let '(r', w2, t) := run (k r) h w1 in
      (r', w2, Called c (raised_of r) :: t)
  end.

(** The calls of a trace, without their outcomes. *)
Definition calls (t : list item) : list call :=
  omap (fun i => match i with Called c _ => Some c | Logged _ => None end) t.

(** The exceptions raised during a trace. *)
Definition raised (t : list item) : list exn :=
  omap (fun i => match i with Called _ r => r | Logged _ => None end) t.

(** The messages logged during a trace. *)
Definition logged (t : list item) : list string :=
  omap (fun i => match i with Called _ _ => None | Logged m => Some m end) t.

End Prog.

Global Arguments Ret {call ret_ty A} a.
Global Arguments Throw {call ret_ty A} e.
Global Arguments Log {call ret_ty A} msg k.
Global Arguments Vis {call ret_ty A} c k.
Global Arguments bind {call ret_ty A B} p f.
Global Arguments try_except {call ret_ty A} p classes handler.
Global Arguments perform {call ret_ty} c.
Global Arguments log_error {call ret_ty} msg.
Global Arguments Called {call} c raised.
Global Arguments Logged {call} msg.
Global Arguments run {call ret_ty A W} p h w.
Global Arguments calls {call} t.
Global Arguments raised {call} t.
Global Arguments logged {call} t.

Global Instance prog_ret call ret_ty : MRet (prog call ret_ty) :=
  fun A a => Ret a.
Global Instance prog_bind call ret_ty : MBind (prog call ret_ty) :=
  fun A B f p => bind p f.

End Eff.
Import Eff.

(** ** [snapm/_snapm.py] *)

Module Snapm.

Definition NAMESPACE_SNAPSHOT_SET : UUID := 0x952f0e3824a1406dadf60e9fb3c707d8%Z.
Definition NAMESPACE_SNAPSHOT : UUID := 0xc17d07c7148243b79b3c12d490622d93%Z.

(** *** The debugging mask *)

Definition SNAPM_DEBUG_MANAGER : Z := 1.
Definition SNAPM_DEBUG_COMMAND : Z := 2.
Definition SNAPM_DEBUG_PLUGINS : Z := 4.
Definition SNAPM_DEBUG_REPORT : Z := 8.
Definition SNAPM_DEBUG_ALL : Z :=
  Z.lor (Z.lor (Z.lor SNAPM_DEBUG_MANAGER SNAPM_DEBUG_COMMAND)
               SNAPM_DEBUG_PLUGINS)
        SNAPM_DEBUG_REPORT.

(** [get_debug_mask()]: the module global [__DEBUG_MASK] is threaded as
    [debug_mask]. *)
Definition get_debug_mask (debug_mask : Z) : Z := debug_mask.

(** [set_debug_mask(mask)], returning the new value of the global. *)
Definition set_debug_mask (mask : Z) (debug_mask : Z) : result unit * Z :=
  if (mask <? 0)%Z || (mask >? SNAPM_DEBUG_ALL)%Z
  then (Raise (Exn ValueError ("Invalid snapm debug mask: " +:+ str_int mask)),
        debug_mask)
  else (Ok tt, mask).

(** [class SnapmLogger(logging.Logger)]: the logger is its [mask_bits]. *)
Module SnapmLogger.

(** [set_debug_mask(self, mask_bits)], returning the new [self.mask_bits]. *)
Definition set_debug_mask (mask_bits : Z) (self_mask_bits : Z)
    : result unit * Z :=
  if (mask_bits <? 0)%Z || (mask_bits >? SNAPM_DEBUG_ALL)%Z
  then (Raise (Exn ValueError
                 ("Invalid SnapmLogger mask bits: 0x"
                  +:+ format_x (Z.land mask_bits (Z.lnot SNAPM_DEBUG_ALL)))),
        self_mask_bits)
  else (Ok tt, mask_bits).

(** [debug_masked(self, msg)]: the message handed to [self.debug], if any. *)
Definition debug_masked (self_mask_bits : Z) (debug_mask : Z) (msg : string)
    : option string :=
  if (Z.land self_mask_bits (get_debug_mask debug_mask) =? 0)%Z
  then None
  else Some msg.

End SnapmLogger.

(** The command line arguments that [Selection.from_cmd_args] reads.  The
    parser always defines [identifier], [name] and [uuid] and leaves them
    [None] when they are not given; [snapshot_name] and [snapshot_uuid] exist
    for the snapshot commands only, the outer [None] standing for a missing
    attribute. *)
Module CmdArgs.

Record t : Type := mk {
  identifier : option string;
  name : option string;
  uuid : option string;
  snapshot_name : option (option string);
  snapshot_uuid : option (option string)
}.

End CmdArgs.

(** *** [class Selection] *)

Module Selection.

(** Values a [Selection] attribute can hold. *)
Inductive pyval : Type :=
  | VStr (s : string)
  | VInt (z : Z)
  | VStrList (l : list string).

(** Every criterion defaults to [None]. *)
Record t : Type := mk {
  (* Snapshot set fields *)
  name : option string;
  uuid : option string;
  timestamp : option Z;
  nr_snapshots : option Z;
  mount_points : option (list string);
  (* Snapshot fields *)
  origin : option string;
  mount_point : option string;
  snapshot_name : option string;
  snapshot_uuid : option string
}.

Definition snapshot_set_attrs : list string :=
  ["name"; "uuid"; "timestamp"; "nr_snapshots"; "mount_points"].

Definition snapshot_attrs : list string :=
  ["origin"; "mount_point"; "snapshot_name"; "snapshot_uuid"].

Definition all_attrs : list string := snapshot_set_attrs ++ snapshot_attrs.

(** [getattr(self, attr)]: [None] at the outer level means that the object
    has no such attribute ([hasattr] is false), [Some None] that the
    attribute is [None]. *)
Definition getattr (self : t) (attr : string) : option (option pyval) :=
  if String.eqb attr "name" then Some (VStr <$> name self)
  else if String.eqb attr "uuid" then Some (VStr <$> uuid self)
  else if String.eqb attr "timestamp" then Some (VInt <$> timestamp self)
  else if String.eqb attr "nr_snapshots" then Some (VInt <$> nr_snapshots self)
  else if String.eqb attr "mount_points" then Some (VStrList <$> mount_points self)
  else if String.eqb attr "origin" then Some (VStr <$> origin self)
  else if String.eqb attr "mount_point" then Some (VStr <$> mount_point self)
  else if String.eqb attr "snapshot_name" then Some (VStr <$> snapshot_name self)
  else if String.eqb attr "snapshot_uuid" then Some (VStr <$> snapshot_uuid self)
  else None.

(** [__attr_has_value]:
    [hasattr(self, attr) and getattr(self, attr) is not None] *)
Definition attr_has_value (self : t) (attr : string) : bool :=
  match getattr self attr with
  | Some (Some _) => true
  | _ => false
  end.

(** [check_valid_selection(self, snapshot_set=False, snapshot=False)] *)
Definition check_valid_selection
    (self : t) (snapshot_set snapshot : bool) : result unit :=
  let valid_attrs :=
    (if snapshot_set then snapshot_set_attrs else [])
    ++ (if snapshot then snapshot_attrs else []) in
  let invalid_attrs :=
    List.filter
      (fun attr => attr_has_value self attr && negb (str_in attr valid_attrs))
      all_attrs in
  match invalid_attrs with
  | [] => Ok tt
  | _ :: _ =>
      let invalid := join ", " invalid_attrs in
      Raise (Exn ValueError ("Invalid criteria for selection type: " +:+ invalid))
  end.

(** [is_null]: the names of the attributes that are set are non-empty
    strings, so [any] is true as soon as there is one. *)
Definition is_null (self : t) : bool :=
  let attrs := List.filter (attr_has_value self) all_attrs in
  negb (any (map (fun attr => negb (String.eqb attr "")) attrs)).

(** [is_single] *)
Definition is_single (self : t) : bool :=
  bool_decide (name self ≠ None) || bool_decide (uuid self ≠ None).

(** [from_cmd_args(cls, cmd_args)].  [UUID_ok s] tells whether [UUID(s)] of
    the standard library accepts the string [s]; [repr] is [__repr__], whose
    text follows the iteration order of a Python set.  The result comes with
    the messages passed to [_log_debug]. *)
Definition from_cmd_args (UUID_ok : string → bool) (repr : t → string)
    (cmd_args : CmdArgs.t) : result t * list string :=
  let name_uuid : result (option string * option string) :=
    if truthy (CmdArgs.identifier cmd_args)
    then
      let identifier := default "" (CmdArgs.identifier cmd_args) in
      if UUID_ok identifier
      then Ok (None, Some identifier)
      else Ok (Some identifier, None)
    else if truthy (CmdArgs.name cmd_args)
    then Ok (CmdArgs.name cmd_args, None)
    else if truthy (CmdArgs.uuid cmd_args)
    then
      let uuid := default "" (CmdArgs.uuid cmd_args) in
      if UUID_ok uuid
      then Ok (None, Some uuid)
      else Raise (Exn SnapmInvalidIdentifierError
                    ("Invalid UUID: '" +:+ uuid +:+ "'"))
    else Ok (None, None) in
  match name_uuid with
  | Raise e => (Raise e, [])
  | Ok (name, uuid) =>
      let snapshot_name := default None (CmdArgs.snapshot_name cmd_args) in
      let snapshot_uuid := default None (CmdArgs.snapshot_uuid cmd_args) in
      let select :=
        mk name uuid None None None None None snapshot_name snapshot_uuid in
      (Ok select, ["Initialised " +:+ repr select +:+ " from arguments"])
  end.

End Selection.

(** *** [class SnapStatus(Enum)] *)

Inductive SnapStatus : Type := ACTIVE | INACTIVE | INVALID.

Global Instance SnapStatus_eq_dec : EqDecision SnapStatus.
Proof. solve_decision. Defined.

Definition SnapStatus_value (s : SnapStatus) : Z :=
  match s with ACTIVE => 1%Z | INACTIVE => 2%Z | INVALID => 3%Z end.

Definition SnapStatus_str (s : SnapStatus) : string :=
  if bool_decide (s = ACTIVE) then "Active"
  else if bool_decide (s = INACTIVE) then "Inactive"
  else "Invalid".

(** *** [class Snapshot] *)

Module Snapshot.

Record t : Type := mk {
  _name : string;
  _uuid : UUID;
  _snapset_name : string;
  _origin : string;
  _timestamp : Z;
  _mount_point : string;
  _provider : string   (* the plugin, by its name *)
}.

(** [__init__(self, name, snapset_name, origin, timestamp, mount_point,
    provider)] *)
Definition __init__ (name snapset_name origin : string) (timestamp : Z)
    (mount_point provider : string) : t :=
  {| _name := name;
     _uuid := uuid5 NAMESPACE_SNAPSHOT name;
     _snapset_name := snapset_name;
     _origin := origin;
     _timestamp := timestamp;
     _mount_point := mount_point;
     _provider := provider |}.

Definition name (self : t) : string := _name self.
Definition uuid (self : t) : UUID := _uuid self.
Definition snapset_name (self : t) : string := _snapset_name self.
Definition timestamp (self : t) : Z := _timestamp self.
Definition mount_point (self : t) : string := _mount_point self.
Definition provider (self : t) : string := _provider self.

(** The properties that the base class leaves to the plugin's subclass
    ([raise NotImplementedError]): what the backend reports for a
    snapshot. *)
Class Backend : Type := {
  status : t → SnapStatus;
  autoactivate : t → bool
}.

(** The calls a snapshot makes into its plugin. *)
Inductive call : Type :=
  | provider_set_autoactivate (provider name : string) (auto : bool)
  | invalidate_cache (name : string).

Definition ret_ty (c : call) : Type := unit.

Global Instance call_eq_dec : EqDecision call.
Proof. solve_decision. Defined.



(** [set_autoactivate(self, auto=False)] *)
Definition set_autoactivate (self : t) (auto : bool) : prog call ret_ty unit :=
  _ ← perform (provider_set_autoactivate (_provider self) (name self) auto);
  perform (invalidate_cache (name self)).

End Snapshot.

(** *** [class SnapshotSet] *)

Module SnapshotSet.

Record t : Type := mk {
  _name : string;
  _timestamp : Z;
  _uuid : UUID;
  _snapshots : list Snapshot.t;
  _by_mount_point : gmap string Snapshot.t;
  boot_entry : option string;       (* a boot entry, by its boot id *)
  rollback_entry : option string
}.

(** [__init__(self, name, timestamp, snapshots)]: the loop stores each
    snapshot under its mount point, in list order. *)
Definition __init__ (name : string) (timestamp : Z)
    (snapshots : list Snapshot.t) : t :=
  {| _name := name;
     _timestamp := timestamp;
     _uuid := uuid5 NAMESPACE_SNAPSHOT_SET (name +:+ str_int timestamp);
     _snapshots := snapshots;
     _by_mount_point :=
       fold_left
         (fun by_mount_point snapshot =>
            <[Snapshot.mount_point snapshot := snapshot]> by_mount_point)
         snapshots ∅;
     boot_entry := None;
     rollback_entry := None |}.

Definition name (self : t) : string := _name self.
Definition uuid (self : t) : UUID := _uuid self.
Definition timestamp (self : t) : Z := _timestamp self.
Definition snapshots (self : t) : list Snapshot.t := _snapshots self.
Definition nr_snapshots (self : t) : Z := Z.of_nat (length (_snapshots self)).
Definition mount_points (self : t) : list string :=
  map Snapshot.mount_point (snapshots self).

Section Derived.
Context `{Snapshot.Backend}.

(** The [status] property. *)
Definition status (self : t) : SnapStatus :=
  if any (map (fun s => bool_decide (Snapshot.status s = INVALID))
              (snapshots self))
  then INVALID
  else if any (map (fun s => bool_decide (Snapshot.status s = INACTIVE))
                   (snapshots self))
  then INACTIVE
  else ACTIVE.

(** The [autoactivate] property. *)
Definition autoactivate (self : t) : bool :=
  all (map Snapshot.autoactivate (snapshots self)).
End Derived.

Definition autoactivate_failed (name err : string) : string :=
  "Failed to set autoactivation for snapshot set member " +:+ name
  +:+ ": " +:+ err.


(** The [autoactivate] setter. *)
Fixpoint autoactivate_loop (snapshots : list Snapshot.t) (value : bool)
    : prog Snapshot.call Snapshot.ret_ty unit :=
  match snapshots with
  | [] => mret tt
  | snapshot :: rest =>
      _ ← try_except
            (Snapshot.set_autoactivate snapshot value)
            [SnapmError]
            (fun err =>
               log_error
                 (autoactivate_failed (Snapshot.name snapshot) (exn_msg err)));
      autoactivate_loop rest value
  end.

Definition set_autoactivate (self : t) (value : bool)
    : prog Snapshot.call Snapshot.ret_ty unit :=
  autoactivate_loop (snapshots self) value.

(** [snapshot_by_mount_point(self, mount_point)] *)
Definition snapshot_by_mount_point (self : t) (mount_point : string)
    : result Snapshot.t :=
  match _by_mount_point self !! mount_point with
  | Some snapshot => Ok snapshot
  | None =>
      Raise (Exn SnapmNotFoundError
               ("Mount point " +:+ mount_point +:+ " not found in snapset "
                +:+ name self))
  end.

End SnapshotSet.

End Snapm.
Import Snapm.

(** ** The manager, as [snapm/command.py] calls it *)

Module Manager.

(** The methods of [snapm.manager.Manager] that the command layer calls. *)
Inductive call : Type :=
  | create_snapshot_set (name : string) (mount_points : list string)
  | activate_snapshot_sets (selection : Selection.t)
  | create_snapshot_set_boot_entry (name uuid : option string)
  | create_snapshot_set_rollback_entry (name uuid : option string)
  | delete_snapshot_sets (selection : Selection.t)
  | rollback_snapshot_sets (selection : Selection.t).

Definition ret_ty (c : call) : Type :=
  match c with
  | create_snapshot_set _ _ => SnapshotSet.t
  | activate_snapshot_sets _ => Z
  | create_snapshot_set_boot_entry _ _ => unit
  | create_snapshot_set_rollback_entry _ _ => unit
  | delete_snapshot_sets _ => Z
  | rollback_snapshot_sets _ => Z
  end.

(** Modelled from the spec: the orchestration core [snapm.manager.Manager]
    is not part of the sources at hand.  This reference manager keeps the
    sets that discovery would report and follows sections 4.1, 4.3 and 4.4
    of the specification: a set matches a selection when every set-level
    criterion equals the set's attribute; creating a set fails with
    [SnapmExistsError] on a name in use; attaching an entry needs exactly one
    match and otherwise fails with [SnapmNotFoundError]; deleting removes
    every matching set with its entries.  The boot store is external: [boot_store]
    holds the error with which it refuses to write a record, if it does. *)
Record world : Type := mkWorld {
  sets : list SnapshotSet.t;
  now : Z;
  boot_store : option exn;
  activated : list string
}.

Definition criterion {A} `{EqDecision A} (crit : option A) (v : A) : bool :=
  match crit with
  | None => true
  | Some c => bool_decide (c = v)
  end.

Definition matches (selection : Selection.t) (ss : SnapshotSet.t) : bool :=
  criterion (Selection.name selection) (SnapshotSet.name ss)
  && criterion (Selection.uuid selection) (UUID_str (SnapshotSet.uuid ss))
  && criterion (Selection.timestamp selection) (SnapshotSet.timestamp ss)
  && criterion (Selection.nr_snapshots selection) (SnapshotSet.nr_snapshots ss)
  && criterion (Selection.mount_points selection) (SnapshotSet.mount_points ss).

Definition find_snapshot_sets (selection : Selection.t) (w : world)
    : list SnapshotSet.t :=
  List.filter (matches selection) (sets w).

Definition with_sets (w : world) (l : list SnapshotSet.t) : world :=
  {| sets := l; now := now w; boot_store := boot_store w;
     activated := activated w |}.

Definition attach (boot rollback : option string) (ss : SnapshotSet.t)
    : SnapshotSet.t :=
  {| SnapshotSet._name := SnapshotSet._name ss;
     SnapshotSet._timestamp := SnapshotSet._timestamp ss;
     SnapshotSet._uuid := SnapshotSet._uuid ss;
     SnapshotSet._snapshots := SnapshotSet._snapshots ss;
     SnapshotSet._by_mount_point := SnapshotSet._by_mount_point ss;
     SnapshotSet.boot_entry :=
       from_option Some (SnapshotSet.boot_entry ss) boot;
     SnapshotSet.rollback_entry :=
       from_option Some (SnapshotSet.rollback_entry ss) rollback |}.

Definition attach_entry (boot rollback : option string)
    (name uuid : option string) (w : world) : result unit * world :=
  let selection :=
    Selection.mk name uuid None None None None None None None in
  match boot_store w with
  | Some e => (Raise e, w)
  | None =>
      match find_snapshot_sets selection w with
      | [_] =>
          (Ok tt,
           with_sets w
             (map (fun ss => if matches selection ss
                             then attach boot rollback ss else ss) (sets w)))
      | _ => (Raise (Exn SnapmNotFoundError "snapshot set not found"), w)
      end
  end.

Definition reference : handler call ret_ty world :=
  fun c =>
    match c return world → result (ret_ty c) * world with
    | create_snapshot_set name mount_points => fun w =>
        if existsb (fun ss => bool_decide (SnapshotSet.name ss = name)) (sets w)
        then (Raise (Exn SnapmExistsError "snapshot set exists"), w)
        else
          let snapshots :=
            map (fun mp =>
                   Snapshot.__init__ (name +:+ "_" +:+ str_int (now w) +:+ mp)
                     name ("/dev/vg" +:+ mp) (now w) mp "lvm2")
                mount_points in
          let ss := SnapshotSet.__init__ name (now w) snapshots in
          (Ok ss, with_sets w (sets w ++ [ss]))
    | activate_snapshot_sets selection => fun w =>
        let found := find_snapshot_sets selection w in
        (Ok (fold_right Z.add 0%Z (map SnapshotSet.nr_snapshots found)),
         {| sets := sets w; now := now w; boot_store := boot_store w;
            activated := activated w ++ map SnapshotSet.name found |})
    | create_snapshot_set_boot_entry name uuid =>
        attach_entry (Some "boot") None name uuid
    | create_snapshot_set_rollback_entry name uuid =>
        attach_entry None (Some "rollback") name uuid
    | delete_snapshot_sets selection => fun w =>
        (Ok (Z.of_nat (length (find_snapshot_sets selection w))),
         with_sets w (List.filter (fun ss => negb (matches selection ss)) (sets w)))
    | rollback_snapshot_sets selection => fun w =>
        match find_snapshot_sets selection w with
        | [_] => (Ok 1%Z, w)
        | _ => (Raise (Exn SnapmNotFoundError "snapshot set not found"), w)
        end
    end.

End Manager.

(** ** [snapm/command.py] *)

Module Command.

Import Manager.

Definition M : Type → Type := prog Manager.call Manager.ret_ty.

(** [Selection(name=n)] *)
Definition Selection_name (n : string) : Selection.t :=
  Selection.mk (Some n) None None None None None None None None.

(** [create_snapset(manager, name, mount_points, boot=False, rollback=False)].
    A [return None] inside an [except] block ends the function: the blocks
    yield [true] when they have returned. *)
Definition create_snapset (name : string) (mount_points : list string)
    (boot rollback : bool) : M (option SnapshotSet.t) :=
  snapset ← perform (create_snapshot_set name mount_points);
  let select := Selection_name (SnapshotSet.name snapset) in
  (* Snapshot sets must be active to create boot entries. *)
  _ ← (if boot || rollback
       then _ ← perform (activate_snapshot_sets select); mret tt
       else mret tt);
  returned ←
    (if boot
     then try_except
            (_ ← perform (create_snapshot_set_boot_entry
                            (Some (SnapshotSet.name snapset)) None);
             mret false)
            [OSError; ValueError; TypeError]
            (fun err =>
               _ ← log_error ("Failed to create snapshot set boot entry: "
                              +:+ exn_msg err);
               _ ← perform (delete_snapshot_sets select);
               mret true)
     else mret false);
  if returned : bool then mret None
  else
    returned ←
      (if rollback
       then try_except
              (_ ← perform (create_snapshot_set_rollback_entry
                              (Some (SnapshotSet.name snapset)) None);
               mret false)
              [OSError; ValueError; TypeError]
              (fun err =>
                 _ ← log_error
                       ("Failed to create snapshot set rollback boot entry: "
                        +:+ exn_msg err);
                 _ ← perform (delete_snapshot_sets select);
                 mret true)
       else mret false);
    if returned : bool then mret None else mret (Some snapset).

(** [delete_snapset(manager, selection)] *)
Definition delete_snapset (selection : Selection.t) : M Z :=
  if negb (Selection.is_single selection)
  then Throw (Exn SnapmInvalidIdentifierError
                "Delete requires unique selection criteria")
  else perform (delete_snapshot_sets selection).

(** [rollback_snapset(manager, selection)] *)
Definition rollback_snapset (selection : Selection.t) : M Z :=
  if negb (Selection.is_single selection)
  then Throw (Exn SnapmInvalidIdentifierError
                "Roll back requires unique selection criteria")
  else perform (rollback_snapshot_sets selection).

Definition _DEFAULT_SNAPSET_FIELDS : string :=
  "name,time,nr_snapshots,status,mountpoints".
Definition _VERBOSE_SNAPSET_FIELDS : string :=
  _DEFAULT_SNAPSET_FIELDS +:+ ",autoactivate,uuid".
Definition _DEFAULT_SNAPSHOT_FIELDS : string :=
  "name,origin,mountpoint,status,autoactivate,devpath".
Definition _VERBOSE_SNAPSHOT_FIELDS : string :=
  _DEFAULT_SNAPSHOT_FIELDS +:+ ",provider,snapshot_uuid".

(** [_expand_fields(default_fields, output_fields)] *)
Definition _expand_fields (default_fields : string)
    (output_fields : option string) : string :=
  match output_fields with
  | None => default_fields
  | Some fields =>
      if String.eqb fields "" then default_fields
      else if startswith fields "+"
      then default_fields +:+ "," +:+ from_1 fields
      else fields
  end.

(** The arguments that [_generic_list_cmd] reads: [-o], the count of [-v],
    [--debug] and [-O]. *)
Module ListArgs.

Record t : Type := mk {
  options : option string;
  verbose : option Z;
  debug : option string;
  sort : option string
}.

End ListArgs.

(** What [_generic_list_cmd] calls: the [print_fn] it is given, with the
    keyword arguments it passes, and the builtin [print]. *)
Inductive list_call (Opts : Type) : Type :=
  | print_fn (selection : Selection.t) (output_fields : option string)
             (opts : Opts) (sort_keys : option string)
  | print (line : string).
Global Arguments print_fn {Opts} selection output_fields opts sort_keys.
Global Arguments print {Opts} line.

Definition list_ret {Opts : Type} (c : list_call Opts) : Type := unit.

(** [_generic_list_cmd(cmd_args, select, opts, manager, verbose_fields,
    print_fn)]; the [try] block yields [true] when its handler has
    returned. *)
Definition _generic_list_cmd {Opts : Type} (cmd_args : ListArgs.t)
    (select : Selection.t) (opts : Opts) (verbose_fields : string)
    : prog (list_call Opts) list_ret Z :=
  let fields :=
    if truthy (ListArgs.options cmd_args) then ListArgs.options cmd_args
    else if bool_decide (default 0%Z (ListArgs.verbose cmd_args) ≠ 0%Z)
    then Some verbose_fields
    else None in
  if truthy (ListArgs.debug cmd_args)
  then
    _ ← perform (print_fn select fields opts (ListArgs.sort cmd_args));
    mret 0%Z
  else
    returned ←
      try_except
        (_ ← perform (print_fn select fields opts (ListArgs.sort cmd_args));
         mret false)
        [ValueError]
        (fun err => _ ← perform (print (exn_msg err)); mret true);
    if returned : bool then mret 1%Z else mret 0%Z.

(** The [mask_map] of [set_debug]. *)
Definition mask_map : gmap string Z :=
  list_to_map
    [("manager", SNAPM_DEBUG_MANAGER); ("command", SNAPM_DEBUG_COMMAND);
     ("plugins", SNAPM_DEBUG_PLUGINS); ("report", SNAPM_DEBUG_REPORT);
     ("all", SNAPM_DEBUG_ALL)].

(** The loop of [set_debug] over the names of the argument. *)
Fixpoint debug_mask_of (names : list string) (mask : Z) : result Z :=
  match names with
  | [] => Ok mask
  | name :: rest =>
      match mask_map !! name with
      | None => Raise (Exn ValueError ("Unknown debug option: " +:+ name))
      | Some bits => debug_mask_of rest (Z.lor mask bits)
      end
  end.

(** [set_debug(debug_arg)], on the global debugging mask. *)
Definition set_debug (debug_arg : option string) (debug_mask : Z)
    : result unit * Z :=
  if negb (truthy debug_arg) then (Ok tt, debug_mask)
  else
    match debug_mask_of (split ","%char (default "" debug_arg)) 0 with
    | Raise e => (Raise e, debug_mask)
    | Ok mask => set_debug_mask mask debug_mask
    end.

(** [_str_indent(string, indent)] *)
Definition _str_indent (string_ : string) (indent : Z) : string :=
  let newline := String (Ascii.ascii_of_N 10) "" in
  rstrip_newlines
    (fold_left (fun outstr line => outstr +:+ spaces indent +:+ line +:+ newline)
               (splitlines string_) "").

End Command.

(** ** Fixtures used by the examples *)

Module Fixture.

(** A backend that answers by snapshot name. *)
Definition backend_by_name (st : string → SnapStatus) (au : string → bool)
    : Snapshot.Backend :=
  {| Snapshot.status := fun s => st (Snapshot.name s);
     Snapshot.autoactivate := fun s => au (Snapshot.name s) |}.

(** Snapshots named after the status the backend reports for them. *)
Definition status_of_name (n : string) : SnapStatus :=
  if String.eqb n "active" then ACTIVE
  else if String.eqb n "inactive" then INACTIVE
  else INVALID.

Definition auto_of_name (n : string) : bool := String.eqb n "active".

(** The backend of the examples. *)
Definition by_name : Snapshot.Backend :=
  backend_by_name status_of_name auto_of_name.

Definition snap (name mount_point : string) : Snapshot.t :=
  Snapshot.__init__ name "bootset0" ("/dev/test_vg0" +:+ mount_point)
    1707923080 mount_point "lvm2".

Definition snapset (snapshots : list Snapshot.t) : SnapshotSet.t :=
  SnapshotSet.__init__ "bootset0" 1707923080 snapshots.

(** A plugin that records the autoactivation it is asked to set, and whose
    callout fails for the snapshots listed in [broken]. *)
Definition plugin (broken : list string)
    : handler Snapshot.call Snapshot.ret_ty (list (string * bool)) :=
  fun c w =>
    match c with
    | Snapshot.provider_set_autoactivate _ name auto =>
        if str_in name broken
        then (Raise (Exn SnapmCalloutError ("lvchange failed: " +:+ name)), w)
        else (Ok tt, w ++ [(name, auto)])
    | Snapshot.invalidate_cache _ => (Ok tt, w)
    end.

(** A machine with no snapshot set, whose boot store answers [boot_store]. *)
Definition empty_world (boot_store : option exn) : Manager.world :=
  Manager.mkWorld [] 1707923080 boot_store [].

(** The set that the reference manager creates on that machine for the
    mount points [/] and [/home] under the name [daily]. *)
Definition daily : SnapshotSet.t :=
  SnapshotSet.__init__ "daily" 1707923080
    [Snapshot.__init__ "daily_1707923080/" "daily" "/dev/vg/"
       1707923080 "/" "lvm2";
     Snapshot.__init__ "daily_1707923080/home" "daily" "/dev/vg/home"
       1707923080 "/home" "lvm2"].

(** The same machine once [daily] exists, then is activated, then is
    deleted again. *)
Definition created (boot_store : option exn) : Manager.world :=
  Manager.mkWorld [daily] 1707923080 boot_store [].

Definition activated (boot_store : option exn) : Manager.world :=
  Manager.mkWorld [daily] 1707923080 boot_store ["daily"].

Definition deleted (boot_store : option exn) : Manager.world :=
  Manager.mkWorld [] 1707923080 boot_store ["daily"].

(** Stand-ins for the two parameters of [Selection.from_cmd_args] in the
    examples: strings of 36 characters read as UUIDs, and a fixed text for
    [__repr__]. *)
Definition uuid_shaped (s : string) : bool :=
  bool_decide (String.length s = 36).

Definition some_repr (s : Selection.t) : string := "Selection(...)".

(** A report function that refuses the field [bogus] with a [ValueError],
    and a terminal that keeps the lines printed. *)
Definition reporter
    : handler (Command.list_call unit) Command.list_ret (list string) :=
  fun c w =>
    match c with
    | Command.print_fn _ output_fields _ _ =>
        if bool_decide (output_fields = Some "bogus")
        then (Raise (Exn ValueError "unknown field: bogus"), w)
        else (Ok tt, w)
    | Command.print line => (Ok tt, w ++ [line])
    end.

(** The reference manager on a machine where snapshots cannot be removed:
    [delete_snapshot_sets] fails with an [OSError]. *)
Definition busy : handler Manager.call Manager.ret_ty Manager.world :=
  fun c =>
    match c return Manager.world → result (Manager.ret_ty c) * Manager.world
    with
    | Manager.delete_snapshot_sets _ => fun w =>
        (Raise (Exn OSError "Device or resource busy"), w)
    | Manager.create_snapshot_set n m =>
        Manager.reference (Manager.create_snapshot_set n m)
    | Manager.activate_snapshot_sets s =>
        Manager.reference (Manager.activate_snapshot_sets s)
    | Manager.create_snapshot_set_boot_entry n u =>
        Manager.reference (Manager.create_snapshot_set_boot_entry n u)
    | Manager.create_snapshot_set_rollback_entry n u =>
        Manager.reference (Manager.create_snapshot_set_rollback_entry n u)
    | Manager.rollback_snapshot_sets s =>
        Manager.reference (Manager.rollback_snapshot_sets s)
    end.

(** A plugin whose callout cannot even be started for the snapshots listed
    in [broken]: the failure is an [OSError], not a [SnapmError]. *)
Definition crashing_plugin (broken : list string)
    : handler Snapshot.call Snapshot.ret_ty (list (string * bool)) :=
  fun c w =>
    match c with
    | Snapshot.provider_set_autoactivate _ name auto =>
        if str_in name broken
        then (Raise (Exn OSError ("lvchange: command not found")), w)
        else (Ok tt, w ++ [(name, auto)])
    | Snapshot.invalidate_cache _ => (Ok tt, w)
    end.

End Fixture.

(** * Properties *)

(** Closes a decidable goal by evaluating its decision procedure. *)
Ltac by_decide := apply (bool_decide_unpack _); vm_compute; exact I.

(** ** Selection *)

Lemma attr_has_value_name (s : Selection.t) :
  Selection.attr_has_value s "name" = bool_decide (Selection.name s ≠ None).
Proof. unfold Selection.attr_has_value; simpl. by destruct (Selection.name s). Qed.

Lemma attr_has_value_uuid (s : Selection.t) :
  Selection.attr_has_value s "uuid" = bool_decide (Selection.uuid s ≠ None).
Proof. unfold Selection.attr_has_value; simpl. by destruct (Selection.uuid s). Qed.

(** C9: [is_single] holds exactly when [name] or [uuid] is set; a selection
    by uuid alone is single, a selection by mount points alone is not. *)
Theorem is_single_iff_name_or_uuid :
  (∀ s : Selection.t,
     Selection.is_single s = true
     ↔ Selection.name s ≠ None ∨ Selection.uuid s ≠ None)
  ∧ (∀ U : string,
       Selection.is_single
         (Selection.mk None (Some U) None None None None None None None) = true)
  ∧ Selection.is_single
      (Selection.mk None None None None (Some ["/x"]) None None None None)
    = false.
Proof.
  split; [|split; [intros U|]; reflexivity].
  intros s. unfold Selection.is_single.
  rewrite orb_true_iff, !bool_decide_eq_true. reflexivity.
Qed.

(** The attributes a selection may carry under the given scope. *)
Lemma check_valid_selection_ok_iff (s : Selection.t) (snapshot_set snapshot : bool) :
  Selection.check_valid_selection s snapshot_set snapshot = Ok tt
  ↔ ∀ attr, attr ∈ Selection.all_attrs →
      Selection.attr_has_value s attr = true →
      attr ∈ (if snapshot_set then Selection.snapshot_set_attrs else [])
             ++ (if snapshot then Selection.snapshot_attrs else []).
Proof.
  unfold Selection.check_valid_selection.
  set (valid := _ ++ _).
  set (bad := List.filter _ _).
  assert (Hbad : ∀ attr, In attr bad ↔
            In attr Selection.all_attrs
            ∧ Selection.attr_has_value s attr = true ∧ attr ∉ valid).
  { intros attr. unfold bad. rewrite filter_In, andb_true_iff, negb_true_iff.
    unfold str_in. rewrite bool_decide_eq_false. tauto. }
  split.
  - intros Hok attr Hin Hval.
    destruct (decide (attr ∈ valid)) as [|Hn]; [done|].
    destruct bad as [|b bad'] eqn:E; [|done].
    exfalso. apply (proj2 (Hbad attr)).
    split; [by apply list_elem_of_In|done].
  - intros Hall. destruct bad as [|b bad'] eqn:E; [done|].
    exfalso. destruct (proj1 (Hbad b)) as (Hin & Hval & Hn); [by left|].
    apply Hn, Hall; [by apply list_elem_of_In|done].
Qed.

(** The criteria that are set and out of scope, in the order in which the
    class declares its attributes. *)
Lemma invalid_attrs_sublist (p : string → bool) (attrs : list string) :
  List.filter p attrs `sublist_of` attrs.
Proof.
  induction attrs as [|attr attrs IH]; [constructor|].
  cbn [List.filter]. destruct (p attr); by constructor.
Qed.

(** C5, as the code has it: a selection carrying a criterion outside the
    allowed scope makes [check_valid_selection] raise [ValueError], which is
    not a [SnapmError]; its message names the offending criteria, every one
    of them and no other, in the order of declaration and separated by
    commas.  A selection whose criteria are all within scope passes and
    [None] is returned. *)
Theorem check_valid_selection_value_error
    (s : Selection.t) (snapshot_set snapshot : bool) :
  let allowed :=
    (if snapshot_set then Selection.snapshot_set_attrs else [])
    ++ (if snapshot then Selection.snapshot_attrs else []) in
  ((∃ attr, attr ∈ Selection.all_attrs
            ∧ Selection.attr_has_value s attr = true ∧ attr ∉ allowed) →
   ∃ offending,
     (∀ attr, attr ∈ offending
              ↔ attr ∈ Selection.all_attrs
                ∧ Selection.attr_has_value s attr = true ∧ attr ∉ allowed)
     ∧ offending `sublist_of` Selection.all_attrs
     ∧ Selection.check_valid_selection s snapshot_set snapshot
       = Raise (Exn ValueError ("Invalid criteria for selection type: "
                                +:+ join ", " offending))
     ∧ ∀ msg, isinstance (Exn ValueError msg) SnapmError = false)
  ∧ ((∀ attr, attr ∈ Selection.all_attrs →
        Selection.attr_has_value s attr = true → attr ∈ allowed) →
     Selection.check_valid_selection s snapshot_set snapshot = Ok tt).
Proof.
  intros allowed. split.
  - intros (attr & Hin & Hval & Hn).
    destruct (Selection.check_valid_selection s snapshot_set snapshot)
      as [[]|e] eqn:E.
    { exfalso. apply Hn.
      by apply (proj1 (check_valid_selection_ok_iff s snapshot_set snapshot) E). }
    unfold Selection.check_valid_selection in E. fold allowed in E.
    set (offending := List.filter _ _) in E. exists offending.
    split; [|split; [|split]].
    + intros a. rewrite list_elem_of_In. unfold offending.
      rewrite filter_In, andb_true_iff, negb_true_iff.
      unfold str_in. rewrite bool_decide_eq_false, !list_elem_of_In. tauto.
    + apply invalid_attrs_sublist.
    + destruct offending; [done|]. by injection E as <-.
    + done.
  - intros Hall. by apply check_valid_selection_ok_iff.
Qed.

Lemma check_valid_selection_value_error_witness :
  (∃ offending,
     (∀ attr, attr ∈ offending
              ↔ attr ∈ Selection.all_attrs
                ∧ Selection.attr_has_value
                    (Selection.mk None None None None None None (Some "/x")
                       None None) attr = true
                ∧ attr ∉ Selection.snapshot_set_attrs ++ [])
     ∧ offending `sublist_of` Selection.all_attrs
     ∧ Selection.check_valid_selection
         (Selection.mk None None None None None None (Some "/x") None None)
         true false
       = Raise (Exn ValueError ("Invalid criteria for selection type: "
                                +:+ join ", " offending))
     ∧ ∀ msg, isinstance (Exn ValueError msg) SnapmError = false)
  ∧ Selection.check_valid_selection
      (Selection.mk (Some "daily") None None None None None None None None)
      true false = Ok tt.
Proof.
  split.
  - apply (check_valid_selection_value_error
             (Selection.mk None None None None None None (Some "/x") None None)
             true false).
    exists "mount_point". split; [|split].
    + by_decide.
    + reflexivity.
    + by_decide.
  - apply (check_valid_selection_value_error
             (Selection.mk (Some "daily") None None None None None None None None)
             true false).
    intros attr Hin Hval. simpl.
    repeat (apply elem_of_cons in Hin as [->|Hin];
            [first [discriminate Hval | by_decide]|]).
    by apply elem_of_nil in Hin.
Defined.

(** The message for the example of the specification, and for a selection
    that carries two snapshot criteria and a set criterion that is in
    scope. *)
Example check_valid_selection_message :
  Selection.check_valid_selection
    (Selection.mk None None None None None None (Some "/x") None None)
    true false
  = Raise (Exn ValueError "Invalid criteria for selection type: mount_point")
  ∧ Selection.check_valid_selection
      (Selection.mk (Some "daily") None None None None
         (Some "/dev/vg/root") None None (Some "22e28d68"))
      true false
    = Raise (Exn ValueError
               "Invalid criteria for selection type: origin, snapshot_uuid").
Proof. split; reflexivity. Qed.

(** The claim of C5 fails where the spec's own example stands: a
    [mount_point] criterion checked against the set-only scope raises
    [ValueError], not [SnapmInvalidIdentifierError]. *)
Lemma check_valid_selection_not_invalid_identifier :
  ¬ ∃ msg,
      Selection.check_valid_selection
        (Selection.mk None None None None None None (Some "/x") None None)
        true false
      = Raise (Exn SnapmInvalidIdentifierError msg).
Proof. intros [msg H]. vm_compute in H. discriminate. Qed.

(** ** SnapshotSet: derived state *)

Section DerivedState.
Context `{Snapshot.Backend}.

Lemma any_map_true {A} (f : A → bool) (l : list A) :
  any (map f l) = true ↔ Exists (fun x => f x = true) l.
Proof.
  unfold any. induction l as [|x l IH]; simpl.
  - split; [done|]. by intros ?%Exists_nil.
  - rewrite orb_true_iff, Exists_cons, IH. reflexivity.
Qed.


Lemma any_status (st : SnapStatus) (l : list Snapshot.t) :
  any (map (fun s => bool_decide (Snapshot.status s = st)) l) = true
  ↔ Exists (fun s => Snapshot.status s = st) l.
Proof.
  rewrite any_map_true, !Exists_exists.
  split; intros (s & Hs & Hst); exists s; split; try done.
  - by apply bool_decide_eq_true in Hst.
  - by apply bool_decide_eq_true.
Qed.

(** C1: the status of a set is [INVALID] if any member is invalid,
    otherwise [INACTIVE] if any member is inactive, otherwise [ACTIVE]. *)
Theorem status_worst_case_wins (ss : SnapshotSet.t) :
  let some_is st :=
    Exists (fun s => Snapshot.status s = st) (SnapshotSet.snapshots ss) in
  (some_is INVALID → SnapshotSet.status ss = INVALID)
  ∧ (¬ some_is INVALID → some_is INACTIVE →
     SnapshotSet.status ss = INACTIVE)
  ∧ (¬ some_is INVALID → ¬ some_is INACTIVE →
     SnapshotSet.status ss = ACTIVE).
Proof.
  intros some_is. unfold SnapshotSet.status.
  pose proof (any_status INVALID (SnapshotSet.snapshots ss)) as Hinv.
  pose proof (any_status INACTIVE (SnapshotSet.snapshots ss)) as Hina.
  fold (some_is INVALID) in Hinv. fold (some_is INACTIVE) in Hina.
  destruct (any _); [|destruct (any _)].
  - split; [done|]. split; intros Hn; exfalso; by apply Hn, Hinv.
  - split; [intros Hi; by apply Hinv in Hi|]. split; [done|].
    intros _ Hn. exfalso. by apply Hn, Hina.
  - split; [intros Hi; by apply Hinv in Hi|]. split; [|done].
    intros _ Hi. by apply Hina in Hi.
Qed.

(** The status of a set is the member status of greatest value, or
    [ACTIVE] when there is none: [INVALID] > [INACTIVE] > [ACTIVE]. *)
Lemma status_is_maximum (ss : SnapshotSet.t) :
  SnapStatus_value (SnapshotSet.status ss)
  = fold_right Z.max 1%Z
      (map (fun s => SnapStatus_value (Snapshot.status s))
           (SnapshotSet.snapshots ss)).
Proof.
  unfold SnapshotSet.status, any.
  induction (SnapshotSet.snapshots ss) as [|s l IH]; [done|].
  cbn [map existsb fold_right]. rewrite <- IH. unfold id at 1 3.
  destruct (Snapshot.status s); cbn [bool_decide decide_rel orb];
    repeat case_bool_decide; try done;
    destruct (existsb id _); destruct (existsb id _); cbn; lia.
Qed.


(** C10: a set built from no snapshots is [ACTIVE] and autoactivated,
    although it has no member. *)
Theorem empty_set_active_autoactivate (name : string) (timestamp : Z) :
  SnapshotSet.status (SnapshotSet.__init__ name timestamp []) = ACTIVE
  ∧ SnapshotSet.autoactivate (SnapshotSet.__init__ name timestamp []) = true
  ∧ SnapshotSet.nr_snapshots (SnapshotSet.__init__ name timestamp []) = 0%Z.
Proof. repeat split. Qed.

End DerivedState.

Section StatusExamples.
Import Fixture.
Local Existing Instance by_name.

Example status_active_active :
  SnapshotSet.status (snapset [snap "active" "/"; snap "active" "/home"])
  = ACTIVE.
Proof. reflexivity. Qed.

Example status_active_inactive :
  SnapshotSet.status (snapset [snap "active" "/"; snap "inactive" "/home"])
  = INACTIVE.
Proof. reflexivity. Qed.

Example status_active_invalid :
  SnapshotSet.status (snapset [snap "active" "/"; snap "invalid" "/home"])
  = INVALID.
Proof. reflexivity. Qed.

Example status_inactive_invalid :
  SnapshotSet.status (snapset [snap "inactive" "/"; snap "invalid" "/home"])
  = INVALID.
Proof. reflexivity. Qed.

Lemma status_worst_case_wins_witness :
  SnapshotSet.status (snapset [snap "inactive" "/"; snap "invalid" "/home"])
  = INVALID
  ∧ SnapshotSet.status (snapset [snap "active" "/"; snap "inactive" "/home"])
    = INACTIVE
  ∧ SnapshotSet.status (snapset [snap "active" "/"; snap "active" "/home"])
    = ACTIVE.
Proof.
  split; [|split].
  - apply (status_worst_case_wins
             (snapset [snap "inactive" "/"; snap "invalid" "/home"])).
    by_decide.
  - apply (status_worst_case_wins
             (snapset [snap "active" "/"; snap "inactive" "/home"]));
      by_decide.
  - apply (status_worst_case_wins
             (snapset [snap "active" "/"; snap "active" "/home"]));
      by_decide.
Defined.

Example autoactivate_all_members :
  SnapshotSet.autoactivate (snapset [snap "active" "/"; snap "active" "/home"])
  = true
  ∧ SnapshotSet.autoactivate
      (snapset [snap "active" "/"; snap "inactive" "/home"]) = false.
Proof. split; reflexivity. Qed.

End StatusExamples.

(** ** SnapshotSet: lookup by mount point *)

Lemma by_mount_point_fold (snapshots : list Snapshot.t)
    (m : gmap string Snapshot.t) (p : string) :
  fold_left
    (fun by_mount_point snapshot =>
       <[Snapshot.mount_point snapshot := snapshot]> by_mount_point)
    snapshots m !! p
  = match last (filter (fun s => Snapshot.mount_point s = p) snapshots) with
    | Some s => Some s
    | None => m !! p
    end.
Proof.
  revert m. induction snapshots as [|s l IH]; intros m; [done|].
  cbn [fold_left]. rewrite IH.
  destruct (decide (Snapshot.mount_point s = p)) as [Heq|Hne].
  - rewrite filter_cons_True by done.
    destruct (filter _ l) as [|s' l'] eqn:E.
    + simpl. by rewrite Heq, lookup_insert_eq.
    + rewrite last_cons_cons.
      destruct (last (s' :: l')) eqn:El; [done|].
      by apply last_None in El.
  - rewrite filter_cons_False by done.
    destruct (last _); [done|]. by rewrite lookup_insert_ne.
Qed.

Lemma filter_none {A} (P : A → Prop) `{∀ x, Decision (P x)} (l : list A) :
  (∀ x, x ∈ l → ¬ P x) → filter P l = [].
Proof.
  induction l as [|x l IH]; intros Hl; [done|].
  rewrite filter_cons_False by (apply Hl; left).
  apply IH. intros y Hy. apply Hl. by right.
Qed.

(** C7: the lookup returns the last member of the list that has the mount
    point, and raises [SnapmNotFoundError] when no member has it. *)
Theorem snapshot_by_mount_point_last
    (name : string) (timestamp : Z) (snapshots : list Snapshot.t) (p : string) :
  let ss := SnapshotSet.__init__ name timestamp snapshots in
  (∀ before s after,
     snapshots = before ++ s :: after →
     Snapshot.mount_point s = p →
     (∀ s', s' ∈ after → Snapshot.mount_point s' ≠ p) →
     SnapshotSet.snapshot_by_mount_point ss p = Ok s)
  ∧ ((∀ s, s ∈ snapshots → Snapshot.mount_point s ≠ p) →
     ∃ msg, SnapshotSet.snapshot_by_mount_point ss p
            = Raise (Exn SnapmNotFoundError msg)).
Proof.
  intros ss. unfold SnapshotSet.snapshot_by_mount_point, ss. simpl.
  rewrite by_mount_point_fold, lookup_empty. split.
  - intros before s after -> Hs Hafter.
    rewrite filter_app, filter_cons_True by done.
    rewrite (filter_none _ after) by done.
    by rewrite last_snoc.
  - intros Hnone. rewrite (filter_none _ snapshots) by done. eauto.
Qed.

Lemma snapshot_by_mount_point_last_witness :
  SnapshotSet.snapshot_by_mount_point
    (SnapshotSet.__init__ "bootset0" 1707923080
       [Fixture.snap "first" "/"; Fixture.snap "home" "/home";
        Fixture.snap "second" "/"])
    "/"
  = Ok (Fixture.snap "second" "/")
  ∧ ∃ msg,
      SnapshotSet.snapshot_by_mount_point
        (SnapshotSet.__init__ "bootset0" 1707923080
           [Fixture.snap "first" "/"; Fixture.snap "home" "/home"])
        "/var"
      = Raise (Exn SnapmNotFoundError msg).
Proof.
  split.
  - apply (proj1 (snapshot_by_mount_point_last "bootset0" 1707923080
                    [Fixture.snap "first" "/"; Fixture.snap "home" "/home";
                     Fixture.snap "second" "/"] "/")
             [Fixture.snap "first" "/"; Fixture.snap "home" "/home"]
             (Fixture.snap "second" "/") []).
    + reflexivity.
    + reflexivity.
    + intros s' Hin. by apply elem_of_nil in Hin.
  - apply (proj2 (snapshot_by_mount_point_last "bootset0" 1707923080
                    [Fixture.snap "first" "/"; Fixture.snap "home" "/home"]
                    "/var")).
    intros s Hin.
    repeat (apply elem_of_cons in Hin as [->|Hin]; [by_decide|]).
    by apply elem_of_nil in Hin.
Defined.

(** ** Running programs *)

Section Run.
Context {call : Type} {ret_ty : call → Type} {W : Type}.
Implicit Types (h : handler call ret_ty W) (w : W).

Lemma run_bind {A B} (p : prog call ret_ty A) (f : A → prog call ret_ty B) h w :
  run (bind p f) h w
  = match run p h w with
    | (Ok a, w', t) =>
        let '(r, w'', t') := run (f a) h w' in (r, w'', t ++ t')
    | (Raise e, w', t) => (Raise e, w', t)
    end.
Proof.
  revert w. induction p as [a|e|msg k IH|c k IH]; intros w; simpl.
  - by destruct (run (f a) h w) as [[r w'] t].
  - done.
  - rewrite IH. destruct (run k h w) as [[[a|e] w'] t]; [|done].
    by destruct (run (f a) h w') as [[r w''] t'].
  - destruct (h c w) as [r w1]. rewrite IH.
    destruct (run (k r) h w1) as [[[a|e] w'] t]; [|done].
    by destruct (run (f a) h w') as [[r' w''] t'].
Qed.

Lemma run_try_except {A} (p : prog call ret_ty A) classes
    (handle : exn → prog call ret_ty A) h w :
  run (try_except p classes handle) h w
  = match run p h w with
    | (Ok a, w', t) => (Ok a, w', t)
    | (Raise e, w', t) =>
        if caught_by e classes
        then let '(r, w'', t') := run (handle e) h w' in (r, w'', t ++ t')
        else (Raise e, w', t)
    end.
Proof.
  revert w. induction p as [a|e|msg k IH|c k IH]; intros w; simpl.
  - done.
  - destruct (caught_by e classes); [|done].
    by destruct (run (handle e) h w) as [[r w'] t].
  - rewrite IH. destruct (run k h w) as [[[a|e] w'] t]; [done|].
    destruct (caught_by e classes); [|done].
    by destruct (run (handle e) h w') as [[r w''] t'].
  - destruct (h c w) as [r w1]. rewrite IH.
    destruct (run (k r) h w1) as [[[a|e] w'] t]; [done|].
    destruct (caught_by e classes); [|done].
    by destruct (run (handle e) h w') as [[r' w''] t'].
Qed.

Lemma run_perform (c : call) h w :
  run (perform c) h w
  = (fst (h c w), snd (h c w), [Called c (raised_of (fst (h c w)))]).
Proof. simpl. by destruct (h c w) as [[v|e] w1]. Qed.

End Run.

(** ** SnapshotSet: the autoactivate setter *)

Section Setter.
Context {W : Type} (h : handler Snapshot.call Snapshot.ret_ty W).



End Setter.


Example autoactivate_setter_partial_success :
  let ss :=
    Fixture.snapset [Fixture.snap "root" "/"; Fixture.snap "home" "/home";
                     Fixture.snap "var" "/var"] in
  let out := run (SnapshotSet.set_autoactivate ss true)
                 (Fixture.plugin ["home"]) [] in
  out.1.2 = [("root", true); ("var", true)]
  ∧ logged out.2
    = ["Failed to set autoactivation for snapshot set member home: lvchange failed: home"].
Proof. split; reflexivity. Qed.

(** ** Command layer: single-target commands *)

(** C8: [delete_snapset] and [rollback_snapset] raise
    [SnapmInvalidIdentifierError] on a selection that is not single, without
    any call to the manager; on a single selection they forward the call and
    return what it returns. *)
Theorem single_target_commands_enforce_singularity {W}
    (h : handler Manager.call Manager.ret_ty W) (s : Selection.t) (w : W) :
  (Selection.is_single s = false →
   run (Command.delete_snapset s) h w
   = (Raise (Exn SnapmInvalidIdentifierError
               "Delete requires unique selection criteria"), w, [])
   ∧ run (Command.rollback_snapset s) h w
     = (Raise (Exn SnapmInvalidIdentifierError
                 "Roll back requires unique selection criteria"), w, []))
  ∧ (Selection.is_single s = true →
     (run (Command.delete_snapset s) h w).1
     = h (Manager.delete_snapshot_sets s) w
     ∧ calls (run (Command.delete_snapset s) h w).2
       = [Manager.delete_snapshot_sets s]
     ∧ (run (Command.rollback_snapset s) h w).1
       = h (Manager.rollback_snapshot_sets s) w
     ∧ calls (run (Command.rollback_snapset s) h w).2
       = [Manager.rollback_snapshot_sets s]).
Proof.
  unfold Command.delete_snapset, Command.rollback_snapset.
  split; intros ->; cbn [negb].
  - done.
  - cbn [run perform].
    destruct (h (Manager.delete_snapshot_sets s) w) as [[n|e] w1],
             (h (Manager.rollback_snapshot_sets s) w) as [[n'|e'] w2];
      done.
Qed.

Lemma single_target_commands_enforce_singularity_witness :
  let by_mount_points :=
    Selection.mk None None None None (Some ["/x"]) None None None None in
  let by_name := Command.Selection_name "daily" in
  let w := Fixture.empty_world None in
  (run (Command.delete_snapset by_mount_points) Manager.reference w
   = (Raise (Exn SnapmInvalidIdentifierError
               "Delete requires unique selection criteria"), w, [])
   ∧ run (Command.rollback_snapset by_mount_points) Manager.reference w
     = (Raise (Exn SnapmInvalidIdentifierError
                 "Roll back requires unique selection criteria"), w, []))
  ∧ (run (Command.delete_snapset by_name) Manager.reference w).1
    = Manager.reference (Manager.delete_snapshot_sets by_name) w.
Proof.
  intros by_mount_points by_name w. split.
  - apply (single_target_commands_enforce_singularity
             Manager.reference by_mount_points w).
    reflexivity.
  - apply (single_target_commands_enforce_singularity
             Manager.reference by_name w).
    reflexivity.
Defined.

(** ** Command layer: creating a set with boot entries *)

Section Unwind.
Context {W : Type} (h : handler Manager.call Manager.ret_ty W).
Context (name : string) (mount_points : list string).
Context (snapset : SnapshotSet.t) (w0 w1 w2 : W) (activated : Z).

Let create := Manager.create_snapshot_set name mount_points.
Let select := Command.Selection_name (SnapshotSet.name snapset).
Let activate := Manager.activate_snapshot_sets select.
Let attach_boot :=
  Manager.create_snapshot_set_boot_entry (Some (SnapshotSet.name snapset)) None.
Let attach_rollback :=
  Manager.create_snapshot_set_rollback_entry
    (Some (SnapshotSet.name snapset)) None.
Let delete := Manager.delete_snapshot_sets select.
Let handled := [OSError; ValueError; TypeError].

(** C6, as the code has it.  The boot entry, or the rollback entry, cannot
    be attached to a freshly created and activated set; [failing] is the
    call that raises [e], [before] the calls made up to it and [text] the
    words of the log entry.  When [e] is an [OSError], a [ValueError] or a
    [TypeError], the error is logged under the name of the entry,
    [delete_snapshot_sets] is called on the set's name and, when that call
    returns, [None] is returned: the machine is left as the deletion left
    it.  When [e] is of any other class, it reaches the caller: nothing is
    logged, [delete_snapshot_sets] is not called and the machine is left as
    the failed attachment left it. *)
Theorem create_snapset_unwinds_on_handled_failure
    (boot rollback : bool) (e : exn) (w3 : W) :
  h create w0 = (Ok snapset, w1) →
  h activate w1 = (Ok activated, w2) →
  let out := run (Command.create_snapset name mount_points boot rollback) h w0 in
  let outcome (before : list (item Manager.call)) (failing : Manager.call)
      (text : string) : Prop :=
    (caught_by e handled = true →
     ∀ (deleted : Z) (w4 : W),
       h delete w3 = (Ok deleted, w4) →
       out = (Ok None, w4,
              before ++ [Called failing (Some e);
                         Logged (text +:+ exn_msg e);
                         Called delete None]))
    ∧ (caught_by e handled = false →
       out = (Raise e, w3, before ++ [Called failing (Some e)])) in
  (boot = true →
   h attach_boot w2 = (Raise e, w3) →
   outcome [Called create None; Called activate None] attach_boot
           "Failed to create snapshot set boot entry: ")
  ∧ (rollback = true →
     ∀ w2', (if boot then h attach_boot w2 = (Ok tt, w2') else w2' = w2) →
     h attach_rollback w2' = (Raise e, w3) →
     outcome ([Called create None; Called activate None]
              ++ (if boot then [Called attach_boot None] else []))
             attach_rollback
             "Failed to create snapshot set rollback boot entry: ").
Proof.
  intros Hcreate Hactivate out outcome. subst out outcome.
  unfold Command.create_snapset, mbind, prog_bind, mret, prog_ret.
  cbn [bind perform run try_except orb]. fold create. rewrite Hcreate.
  cbn [bind perform run try_except orb]. fold select activate.
  split.
  - intros -> Hboot.
    cbn [bind perform run try_except orb]. rewrite Hactivate.
    cbn [bind perform run try_except orb raised_of].
    fold attach_boot. rewrite Hboot.
    cbn [bind perform run try_except orb raised_of]. fold handled.
    split; intros Hcaught; rewrite Hcaught; [|reflexivity].
    intros deleted w4 Hdelete.
    cbn [bind perform run try_except orb raised_of log_error].
    fold delete. rewrite Hdelete. reflexivity.
  - intros -> w2' Hboot Hrollback.
    rewrite orb_true_r.
    cbn [bind perform run try_except orb]. rewrite Hactivate.
    cbn [bind perform run try_except orb raised_of].
    destruct boot.
    + cbn [bind perform run try_except orb raised_of].
      fold attach_boot. rewrite Hboot.
      cbn [bind perform run try_except orb raised_of].
      fold attach_rollback. rewrite Hrollback.
      cbn [bind perform run try_except orb raised_of]. fold handled.
      split; intros Hcaught; rewrite Hcaught; [|reflexivity].
      intros deleted w4 Hdelete.
      cbn [bind perform run try_except orb raised_of log_error].
      fold delete. rewrite Hdelete. reflexivity.
    + subst w2'.
      cbn [bind perform run try_except orb raised_of].
      fold attach_rollback. rewrite Hrollback.
      cbn [bind perform run try_except orb raised_of]. fold handled.
      split; intros Hcaught; rewrite Hcaught; [|reflexivity].
      intros deleted w4 Hdelete.
      cbn [bind perform run try_except orb raised_of log_error].
      fold delete. rewrite Hdelete. reflexivity.
Qed.

End Unwind.

(** On the reference manager, with a boot store that is out of space:
    attaching the boot entry, and in a second run the rollback entry, fails
    with an [OSError]; the set is deleted and is not found afterwards. *)
Lemma create_snapset_unwinds_on_handled_failure_witness :
  let e := Exn OSError "No space left on device" in
  let select := Command.Selection_name "daily" in
  let create := Manager.create_snapshot_set "daily" ["/"; "/home"] in
  run (Command.create_snapset "daily" ["/"; "/home"] true false)
      Manager.reference (Fixture.empty_world (Some e))
  = (Ok None, Fixture.deleted (Some e),
     [Called create None;
      Called (Manager.activate_snapshot_sets select) None;
      Called (Manager.create_snapshot_set_boot_entry (Some "daily") None)
        (Some e);
      Logged "Failed to create snapshot set boot entry: No space left on device";
      Called (Manager.delete_snapshot_sets select) None])
  ∧ run (Command.create_snapset "daily" ["/"; "/home"] false true)
        Manager.reference (Fixture.empty_world (Some e))
    = (Ok None, Fixture.deleted (Some e),
       [Called create None;
        Called (Manager.activate_snapshot_sets select) None;
        Called (Manager.create_snapshot_set_rollback_entry (Some "daily") None)
          (Some e);
        Logged ("Failed to create snapshot set rollback boot entry: "
                +:+ "No space left on device");
        Called (Manager.delete_snapshot_sets select) None])
  ∧ Manager.find_snapshot_sets select (Fixture.deleted (Some e)) = [].
Proof.
  intros e select create.
  pose proof (fun boot rollback =>
                create_snapset_unwinds_on_handled_failure
                  Manager.reference "daily" ["/"; "/home"] Fixture.daily
                  (Fixture.empty_world (Some e)) (Fixture.created (Some e))
                  (Fixture.activated (Some e)) 2
                  boot rollback e (Fixture.activated (Some e))
                  eq_refl eq_refl) as Hrun.
  split; [|split].
  - destruct (Hrun true false) as [Hboot _].
    destruct (Hboot eq_refl eq_refl) as [Hhandled _].
    exact (Hhandled eq_refl 1%Z (Fixture.deleted (Some e)) eq_refl).
  - destruct (Hrun false true) as [_ Hrollback].
    destruct (Hrollback eq_refl (Fixture.activated (Some e)) eq_refl eq_refl)
      as [Hhandled _].
    exact (Hhandled eq_refl 1%Z (Fixture.deleted (Some e)) eq_refl).
  - reflexivity.
Defined.

(** The claim of C6 fails when the attachment fails with a [SnapmError]: the
    boot store refuses the entry with a [SnapmCalloutError], nothing catches
    it, [create_snapset] raises instead of returning [None] and the set stays
    behind without a boot entry. *)
Lemma create_snapset_snapm_error_leaves_set :
  let failing :=
    Fixture.empty_world (Some (Exn SnapmCalloutError "grub2-mkconfig failed")) in
  let out :=
    run (Command.create_snapset "daily" ["/"; "/home"] true false)
        Manager.reference failing in
  out.1.1 = Raise (Exn SnapmCalloutError "grub2-mkconfig failed")
  ∧ out.1.1 ≠ Ok None
  ∧ map (fun ss => (SnapshotSet.name ss, SnapshotSet.nr_snapshots ss,
                    SnapshotSet.boot_entry ss))
        (Manager.find_snapshot_sets (Command.Selection_name "daily") out.1.2)
    = [("daily", 2%Z, None)]
  ∧ calls out.2
    = [Manager.create_snapshot_set "daily" ["/"; "/home"];
       Manager.activate_snapshot_sets (Command.Selection_name "daily");
       Manager.create_snapshot_set_boot_entry (Some "daily") None].
Proof. vm_compute. repeat split. discriminate. Qed.

(** ** Identity: UUID derivation *)

Section Bits.
Local Open Scope Z_scope.

Lemma range_land_ones (n x : Z) :
  0 ≤ n → (0 ≤ x < 2 ^ n ↔ Z.land x (Z.ones n) = x).
Proof.
  intros Hn. rewrite Z.land_ones by done. split.
  - intros Hx. by apply Z.mod_small.
  - intros <-. apply Z.mod_pos_bound. by apply Z.pow_pos_nonneg.
Qed.

Lemma lor_range (n a b : Z) :
  0 ≤ n → 0 ≤ a < 2 ^ n → 0 ≤ b < 2 ^ n → 0 ≤ Z.lor a b < 2 ^ n.
Proof.
  intros Hn Ha%range_land_ones Hb%range_land_ones; try done.
  apply range_land_ones; [done|].
  by rewrite Z.land_lor_distr_l, Ha, Hb.
Qed.

Lemma land_range (n a c : Z) :
  0 ≤ n → 0 ≤ a < 2 ^ n → 0 ≤ Z.land a c < 2 ^ n.
Proof.
  intros Hn Ha%range_land_ones; [|done].
  apply range_land_ones; [done|].
  by rewrite <- Z.land_assoc, (Z.land_comm c), Z.land_assoc, Ha.
Qed.

Lemma from_bytes_fold_range (bs : list Z) (acc : Z) (k : nat) :
  0 ≤ acc < 2 ^ (8 * Z.of_nat k) →
  0 ≤ fold_left (fun acc b => Z.lor (Z.shiftl acc 8) (Z.land b 255)) bs acc
    < 2 ^ (8 * Z.of_nat (k + length bs)).
Proof.
  revert acc k. induction bs as [|b bs IH]; intros acc k Hacc.
  - by rewrite Nat.add_0_r.
  - cbn [fold_left length].
    replace (k + S (length bs))%nat with (S k + length bs)%nat by lia.
    apply IH.
    replace (8 * Z.of_nat (S k)) with (8 * Z.of_nat k + 8) by lia.
    apply lor_range; [lia| |].
    + rewrite Z.shiftl_mul_pow2 by lia.
      rewrite Z.pow_add_r by lia. change (2 ^ 8) with 256. nia.
    + assert (0 ≤ Z.land b 255 < 2 ^ 8) as Hb.
      { rewrite Z.land_comm. by apply land_range. }
      split; [lia|]. eapply Z.lt_le_trans; [apply Hb|].
      apply Z.pow_le_mono_r; lia.
Qed.

Lemma from_bytes_range (bs : list Z) :
  0 ≤ from_bytes bs < 2 ^ (8 * Z.of_nat (length bs)).
Proof. apply (from_bytes_fold_range bs 0 0). simpl. lia. Qed.

(** A UUID is a 128-bit value. *)
Lemma uuid5_range (namespace : UUID) (name : string) :
  0 ≤ uuid5 namespace name < 2 ^ 128.
Proof.
  unfold uuid5, UUID_of_bytes.
  set (bs := firstn 16 _).
  assert (0 ≤ from_bytes bs < 2 ^ 128) as Hbs.
  { pose proof (from_bytes_range bs) as H.
    assert (length bs ≤ 16)%nat as Hlen by apply firstn_le_length.
    split; [lia|]. eapply Z.lt_le_trans; [apply H|].
    apply Z.pow_le_mono_r; lia. }
  apply lor_range; [lia| |by vm_compute].
  apply land_range; [lia|].
  apply lor_range; [lia| |by vm_compute].
  by apply land_range.
Qed.

End Bits.

Lemma append_inj_l (p a b : string) : p +:+ a = p +:+ b → a = b.
Proof.
  induction p as [|c p IH]; cbn; [done|].
  intros [= H]. by apply IH.
Qed.

(** The string that is hashed for a set names its timestamp. *)
Lemma hashed_name_inj (name : string) (timestamp timestamp' : Z) :
  name +:+ str_int timestamp = name +:+ str_int timestamp' →
  timestamp = timestamp'.
Proof. intros H%append_inj_l. by apply (inj pretty) in H. Qed.

(** Among the UUIDs derived for one name and the timestamps [0] to [2^128]
    two are the same: there are more timestamps than 128-bit values. *)
Lemma set_uuid_collision (name : string) :
  ∃ timestamp timestamp' : Z,
    timestamp ≠ timestamp'
    ∧ SnapshotSet.uuid (SnapshotSet.__init__ name timestamp [])
      = SnapshotSet.uuid (SnapshotSet.__init__ name timestamp' []).
Proof.
  pose (f := fun i : nat =>
    Z.to_nat (uuid5 NAMESPACE_SNAPSHOT_SET (name +:+ str_int (Z.of_nat i)))).
  assert (Hf : ∀ i, (f i < Z.to_nat (2 ^ 128))%nat).
  { intros i. unfold f.
    pose proof (uuid5_range NAMESPACE_SNAPSHOT_SET
                  (name +:+ str_int (Z.of_nat i))) as [H0 H1].
    apply Z2Nat.inj_lt; [done| |done]. by apply Z.pow_nonneg. }
  generalize dependent (Z.to_nat (2 ^ 128)). intros N Hf.
  destruct (nat_pigeonhole f (S N) N) as (i & j & Hij & Heq);
    [lia|by intros i _|].
  exists (Z.of_nat i), (Z.of_nat j). split; [lia|].
  cbn. unfold f in Heq. apply Z2Nat.inj in Heq; [done| |];
    apply uuid5_range.
Qed.

(** The identities that the Python interpreter derives for the test set
    and for one of its snapshots. *)
Example uuid_bootset0 :
  UUID_str (SnapshotSet.uuid (SnapshotSet.__init__ "bootset0" 1707923080 []))
  = "453bcf0f-fa6f-5ea4-9f1e-accef91cdb46"
  ∧ UUID_str (SnapshotSet.uuid (SnapshotSet.__init__ "bootset0" 1707923081 []))
    = "29336126-ffa4-5729-ab18-c5f6ac2c3f80"
  ∧ UUID_str (Snapshot.uuid (Fixture.snap "snap0" "/"))
    = "22e28d68-036d-5fe4-a22d-f9dc75764fb7".
Proof. vm_compute. repeat split. Qed.

(** * Further properties of the code *)

(** ** Selection: null selections and scopes *)

(** A selection is null exactly when none of its nine criteria is set. *)
Theorem is_null_iff_no_criterion (s : Selection.t) :
  Selection.is_null s = true
  ↔ s = Selection.mk None None None None None None None None None.
Proof.
  destruct s as [[?|] [?|] [?|] [?|] [?|] [?|] [?|] [?|] [?|]];
    split; intros H; first [reflexivity | discriminate H].
Qed.

(** A single selection is never null. *)
Lemma is_single_not_null (s : Selection.t) :
  Selection.is_single s = true → Selection.is_null s = false.
Proof.
  intros Hs. destruct (Selection.is_null s) eqn:E; [|done].
  apply is_null_iff_no_criterion in E. by subst s.
Qed.

Lemma attr_has_value_none (attr : string) :
  Selection.attr_has_value
    (Selection.mk None None None None None None None None None) attr = false.
Proof.
  unfold Selection.attr_has_value, Selection.getattr.
  repeat (destruct (String.eqb attr _); [done|]). done.
Qed.

(** The scope check accepts every selection when both scopes are allowed,
    accepts exactly the null selection when neither is, and a selection that
    passes keeps passing when the scope is widened. *)
Theorem check_valid_selection_scopes (s : Selection.t) :
  Selection.check_valid_selection s true true = Ok tt
  ∧ (Selection.check_valid_selection s false false = Ok tt
     ↔ Selection.is_null s = true)
  ∧ (∀ a b a' b' : bool,
       (a = true → a' = true) → (b = true → b' = true) →
       Selection.check_valid_selection s a b = Ok tt →
       Selection.check_valid_selection s a' b' = Ok tt).
Proof.
  split; [|split].
  - apply check_valid_selection_ok_iff. by intros attr Hin _.
  - rewrite check_valid_selection_ok_iff, is_null_iff_no_criterion. split.
    + intros Hall.
      assert (Hnone : ∀ attr, attr ∈ Selection.all_attrs →
                Selection.attr_has_value s attr = false).
      { intros attr Hin.
        destruct (Selection.attr_has_value s attr) eqn:E; [|done].
        by apply Hall, elem_of_nil in E. }
      pose proof (Hnone "name") as H1. pose proof (Hnone "uuid") as H2.
      pose proof (Hnone "timestamp") as H3.
      pose proof (Hnone "nr_snapshots") as H4.
      pose proof (Hnone "mount_points") as H5.
      pose proof (Hnone "origin") as H6.
      pose proof (Hnone "mount_point") as H7.
      pose proof (Hnone "snapshot_name") as H8.
      pose proof (Hnone "snapshot_uuid") as H9.
      destruct s as [[?|] [?|] [?|] [?|] [?|] [?|] [?|] [?|] [?|]];
        first [ reflexivity
              | discriminate H1; by_decide | discriminate H2; by_decide
              | discriminate H3; by_decide | discriminate H4; by_decide
              | discriminate H5; by_decide | discriminate H6; by_decide
              | discriminate H7; by_decide | discriminate H8; by_decide
              | discriminate H9; by_decide ].
    + intros -> attr _ Hval. by rewrite attr_has_value_none in Hval.
  - intros a b a' b' Ha Hb.
    rewrite !check_valid_selection_ok_iff. intros Hok attr Hin Hval.
    specialize (Hok attr Hin Hval).
    apply elem_of_app in Hok as [Hok|Hok]; apply elem_of_app.
    + left. destruct a; [by rewrite Ha|by apply elem_of_nil in Hok].
    + right. destruct b; [by rewrite Hb|by apply elem_of_nil in Hok].
Qed.

Lemma check_valid_selection_scopes_witness :
  Selection.check_valid_selection
    (Selection.mk (Some "daily") None None None None None None None None)
    true true = Ok tt.
Proof.
  apply (proj2 (proj2 (check_valid_selection_scopes
                         (Selection.mk (Some "daily") None None None None
                            None None None None)))
           true false true true); reflexivity.
Defined.

(** ** Selection: from command line arguments *)

Section FromCmdArgs.
Context (UUID_ok : string → bool) (repr : Selection.t → string).

Lemma truthy_Some (o : option string) :
  truthy o = true ↔ ∃ s, o = Some s ∧ s ≠ "".
Proof.
  destruct o as [s|]; cbn.
  - rewrite negb_true_iff. split.
    + intros H. exists s. split; [done|]. intros ->. by cbn in H.
    + intros (s' & [= <-] & Hne). by apply String.eqb_neq.
  - split; [done|]. by intros (s & H & _).
Qed.

(** [from_cmd_args] raises in one case only: no identifier, no name, and a
    [--uuid] that is not a UUID.  The error is then a
    [SnapmInvalidIdentifierError] quoting the string. *)
Theorem from_cmd_args_raises_iff (cmd_args : CmdArgs.t) (e : exn) :
  (Selection.from_cmd_args UUID_ok repr cmd_args).1 = Raise e
  ↔ truthy (CmdArgs.identifier cmd_args) = false
    ∧ truthy (CmdArgs.name cmd_args) = false
    ∧ ∃ u, CmdArgs.uuid cmd_args = Some u ∧ u ≠ "" ∧ UUID_ok u = false
           ∧ e = Exn SnapmInvalidIdentifierError
                   ("Invalid UUID: '" +:+ u +:+ "'").
Proof.
  unfold Selection.from_cmd_args.
  destruct (truthy (CmdArgs.identifier cmd_args)) eqn:Ei.
  { destruct (UUID_ok _); cbn; split; [done| |done|]; by intros (? & _). }
  destruct (truthy (CmdArgs.name cmd_args)) eqn:En.
  { cbn; split; [done|]. by intros (_ & ? & _). }
  destruct (truthy (CmdArgs.uuid cmd_args)) eqn:Eu.
  - apply truthy_Some in Eu as (u & Hu & Hne). rewrite Hu. cbn.
    destruct (UUID_ok u) eqn:Eok; cbn.
    + split; [done|]. intros (_ & _ & u' & [= <-] & _ & Hbad & _). congruence.
    + split.
      * intros [= <-]. repeat split. by exists u.
      * intros (_ & _ & u' & [= <-] & _ & _ & ->). done.
  - cbn. split; [done|]. intros (_ & _ & u & Hu & Hne & _).
    assert (truthy (CmdArgs.uuid cmd_args) = true) as Ht
      by (apply truthy_Some; eauto).
    congruence.
Qed.

(** What [from_cmd_args] returns carries only [name], [uuid] and the two
    snapshot criteria; [name] and [uuid] are never set together; and the
    selection is single exactly when an identifier, a name or a uuid was
    given. *)
Theorem from_cmd_args_shape (cmd_args : CmdArgs.t) (select : Selection.t) :
  (Selection.from_cmd_args UUID_ok repr cmd_args).1 = Ok select →
  Selection.timestamp select = None
  ∧ Selection.nr_snapshots select = None
  ∧ Selection.mount_points select = None
  ∧ Selection.origin select = None
  ∧ Selection.mount_point select = None
  ∧ (Selection.name select = None ∨ Selection.uuid select = None)
  ∧ Selection.is_single select
    = truthy (CmdArgs.identifier cmd_args)
      || truthy (CmdArgs.name cmd_args)
      || truthy (CmdArgs.uuid cmd_args)
  ∧ (CmdArgs.snapshot_name cmd_args = None →
     CmdArgs.snapshot_uuid cmd_args = None →
     Selection.check_valid_selection select true false = Ok tt).
Proof.
  unfold Selection.from_cmd_args.
  destruct cmd_args as [identifier name uuid snapshot_name snapshot_uuid].
  cbn [CmdArgs.identifier CmdArgs.name CmdArgs.uuid CmdArgs.snapshot_name
       CmdArgs.snapshot_uuid].
  assert (Hscope : ∀ n u,
            Selection.check_valid_selection
              (Selection.mk n u None None None None None None None)
              true false = Ok tt).
  { intros n u. apply check_valid_selection_ok_iff.
    intros attr Hin Hval. cbn in Hin, Hval |- *.
    destruct n, u;
      repeat (apply elem_of_cons in Hin as [->|Hin];
              [first [discriminate Hval | by_decide]|]);
      by apply elem_of_nil in Hin. }
  destruct (truthy identifier) eqn:Ei; [|destruct (truthy name) eqn:En;
                                         [|destruct (truthy uuid) eqn:Eu]].
  - apply truthy_Some in Ei as (i & -> & Hi).
    intros H; cbn in H; destruct (UUID_ok i); cbn in H; injection H as <-;
      cbn; (repeat split; [by eauto|]); intros -> ->; apply Hscope.
  - apply truthy_Some in En as (n & -> & Hn).
    intros H; cbn in H; injection H as <-; cbn.
    (repeat split; [by eauto|]); intros -> ->; apply Hscope.
  - apply truthy_Some in Eu as (u & -> & Hu).
    intros H; cbn in H; destruct (UUID_ok u); cbn in H; [|done].
    injection H as <-; cbn.
    (repeat split; [by eauto|]); intros -> ->; apply Hscope.
  - intros H; cbn in H; injection H as <-; cbn.
    (repeat split; [by eauto|]); intros -> ->; apply Hscope.
Qed.

(** A positional identifier wins over [--name] and [--uuid]: it becomes the
    uuid when it reads as a UUID and the name otherwise, and what [--uuid]
    holds is not even checked. *)
Theorem from_cmd_args_identifier_first (cmd_args : CmdArgs.t) (i : string) :
  CmdArgs.identifier cmd_args = Some i → i ≠ "" →
  ∃ select,
    (Selection.from_cmd_args UUID_ok repr cmd_args).1 = Ok select
    ∧ Selection.name select = (if UUID_ok i then None else Some i)
    ∧ Selection.uuid select = (if UUID_ok i then Some i else None).
Proof.
  intros Hi Hne. unfold Selection.from_cmd_args.
  assert (truthy (CmdArgs.identifier cmd_args) = true) as ->
    by (apply truthy_Some; eauto).
  rewrite Hi. cbn. destruct (UUID_ok i); cbn; eexists; repeat split.
Qed.

End FromCmdArgs.

Lemma from_cmd_args_shape_witness :
  let select :=
    Selection.mk None (Some "453bcf0f-fa6f-5ea4-9f1e-accef91cdb46")
      None None None None None None None in
  Selection.is_single select = true
  ∧ Selection.check_valid_selection select true false = Ok tt.
Proof.
  intros select.
  destruct (from_cmd_args_shape Fixture.uuid_shaped Fixture.some_repr
              (CmdArgs.mk (Some "453bcf0f-fa6f-5ea4-9f1e-accef91cdb46")
                 (Some "ignored") None None None)
              select)
    as (_ & _ & _ & _ & _ & _ & Hsingle & Hscope); [reflexivity|].
  split; [exact Hsingle|by apply Hscope].
Defined.

Lemma from_cmd_args_identifier_first_witness :
  ∃ select,
    (Selection.from_cmd_args Fixture.uuid_shaped Fixture.some_repr
       (CmdArgs.mk (Some "daily") (Some "weekly") (Some "not-a-uuid")
          None None)).1 = Ok select
    ∧ Selection.name select = Some "daily"
    ∧ Selection.uuid select = None.
Proof.
  apply (from_cmd_args_identifier_first Fixture.uuid_shaped Fixture.some_repr
           (CmdArgs.mk (Some "daily") (Some "weekly") (Some "not-a-uuid")
              None None) "daily"); [reflexivity|discriminate].
Defined.

(** The delete and rollback commands build their selection with
    [from_cmd_args]: without an identifier, a name or a uuid the selection is
    refused before the manager is called, whatever snapshot criteria come
    with it; with one of them the manager gets exactly one call. *)
Theorem single_target_commands_from_cmd_args {W}
    (UUID_ok : string → bool) (repr : Selection.t → string)
    (h : handler Manager.call Manager.ret_ty W) (w : W)
    (cmd_args : CmdArgs.t) (select : Selection.t) :
  (Selection.from_cmd_args UUID_ok repr cmd_args).1 = Ok select →
  let given :=
    truthy (CmdArgs.identifier cmd_args) || truthy (CmdArgs.name cmd_args)
    || truthy (CmdArgs.uuid cmd_args) in
  (given = false →
   calls (run (Command.delete_snapset select) h w).2 = []
   ∧ calls (run (Command.rollback_snapset select) h w).2 = []
   ∧ (∃ msg, (run (Command.delete_snapset select) h w).1.1
             = Raise (Exn SnapmInvalidIdentifierError msg))
   ∧ (∃ msg, (run (Command.rollback_snapset select) h w).1.1
             = Raise (Exn SnapmInvalidIdentifierError msg)))
  ∧ (given = true →
     calls (run (Command.delete_snapset select) h w).2
     = [Manager.delete_snapshot_sets select]
     ∧ calls (run (Command.rollback_snapset select) h w).2
       = [Manager.rollback_snapshot_sets select]).
Proof.
  intros Hsel given.
  destruct (from_cmd_args_shape UUID_ok repr cmd_args select Hsel)
    as (_ & _ & _ & _ & _ & _ & Hsingle & _).
  fold given in Hsingle.
  unfold Command.delete_snapset, Command.rollback_snapset. rewrite Hsingle.
  split; intros ->; cbn [negb run perform].
  - repeat split; eauto.
  - destruct (h (Manager.delete_snapshot_sets select) w) as [[n|e] w1],
             (h (Manager.rollback_snapshot_sets select) w) as [[n'|e'] w2];
      done.
Qed.

Lemma single_target_commands_from_cmd_args_witness :
  let select :=
    Selection.mk None None None None None None None (Some "snap0") None in
  calls (run (Command.delete_snapset select) Manager.reference
           (Fixture.created None)).2 = []
  ∧ calls (run (Command.delete_snapset (Command.Selection_name "daily"))
             Manager.reference (Fixture.created None)).2
    = [Manager.delete_snapshot_sets (Command.Selection_name "daily")].
Proof.
  intros select. split.
  - apply (single_target_commands_from_cmd_args
             Fixture.uuid_shaped Fixture.some_repr Manager.reference
             (Fixture.created None)
             (CmdArgs.mk None None (Some "") (Some (Some "snap0")) (Some None))
             select); reflexivity.
  - apply (single_target_commands_from_cmd_args
             Fixture.uuid_shaped Fixture.some_repr Manager.reference
             (Fixture.created None)
             (CmdArgs.mk None (Some "daily") None None None)
             (Command.Selection_name "daily")); reflexivity.
Defined.

(** ** SnapshotSet: the mount point index *)

Lemma by_mount_point_lookup (name : string) (timestamp : Z)
    (snapshots : list Snapshot.t) (p : string) :
  SnapshotSet._by_mount_point (SnapshotSet.__init__ name timestamp snapshots)
    !! p
  = last (filter (fun s => Snapshot.mount_point s = p) snapshots).
Proof.
  cbn. rewrite by_mount_point_fold, lookup_empty. by destruct (last _).
Qed.

(** Looking a mount point up succeeds exactly for the mount points of the
    set, and what it returns is a member of the set that has this mount
    point. *)
Theorem snapshot_by_mount_point_member
    (name : string) (timestamp : Z) (snapshots : list Snapshot.t) (p : string) :
  let ss := SnapshotSet.__init__ name timestamp snapshots in
  ((∃ s, SnapshotSet.snapshot_by_mount_point ss p = Ok s)
   ↔ p ∈ SnapshotSet.mount_points ss)
  ∧ (∀ s, SnapshotSet.snapshot_by_mount_point ss p = Ok s →
          s ∈ SnapshotSet.snapshots ss ∧ Snapshot.mount_point s = p)
  ∧ SnapshotSet.nr_snapshots ss
    = Z.of_nat (length (SnapshotSet.mount_points ss)).
Proof.
  intros ss.
  assert (Hlook : ∀ s, SnapshotSet.snapshot_by_mount_point ss p = Ok s
            ↔ last (filter (fun s => Snapshot.mount_point s = p) snapshots)
              = Some s).
  { intros s. unfold SnapshotSet.snapshot_by_mount_point, ss.
    rewrite by_mount_point_lookup. destruct (last _); split; congruence. }
  assert (Hmem : ∀ s, SnapshotSet.snapshot_by_mount_point ss p = Ok s →
            s ∈ snapshots ∧ Snapshot.mount_point s = p).
  { intros s Hs%Hlook. apply last_Some_elem_of in Hs.
    by apply list_elem_of_filter in Hs as [? ?]. }
  split; [|split; [exact Hmem|]].
  - unfold SnapshotSet.mount_points, SnapshotSet.snapshots. cbn. split.
    + intros (s & Hs). apply Hmem in Hs as [Hin <-].
      by apply list_elem_of_fmap_2.
    + intros (s & -> & Hin)%list_elem_of_fmap.
      destruct (last (filter (fun s' => Snapshot.mount_point s'
                                        = Snapshot.mount_point s) snapshots))
        as [s'|] eqn:E.
      * exists s'. by apply Hlook.
      * apply last_None in E.
        assert (s ∈ filter (fun s' => Snapshot.mount_point s'
                                      = Snapshot.mount_point s) snapshots)
          as Hf by (by apply list_elem_of_filter).
        rewrite E in Hf. by apply elem_of_nil in Hf.
  - unfold SnapshotSet.nr_snapshots, SnapshotSet.mount_points,
      SnapshotSet.snapshots. cbn. by rewrite length_map.
Qed.

Lemma snapshot_by_mount_point_member_witness :
  Snapshot.mount_point (Fixture.snap "home" "/home") = "/home".
Proof.
  apply (proj1 (proj2 (snapshot_by_mount_point_member "bootset0" 1707923080
                         [Fixture.snap "root" "/"; Fixture.snap "home" "/home"]
                         "/home"))
           (Fixture.snap "home" "/home")).
  reflexivity.
Defined.

(** When the mount points of the snapshots are all different, every member
    of the set is found again under its own mount point. *)
Theorem snapshot_by_mount_point_round_trip
    (name : string) (timestamp : Z) (snapshots : list Snapshot.t)
    (s : Snapshot.t) :
  NoDup (map Snapshot.mount_point snapshots) →
  s ∈ snapshots →
  SnapshotSet.snapshot_by_mount_point
    (SnapshotSet.__init__ name timestamp snapshots) (Snapshot.mount_point s)
  = Ok s.
Proof.
  intros Hnd (before & after & ->)%list_elem_of_split.
  unfold SnapshotSet.snapshot_by_mount_point.
  rewrite by_mount_point_lookup, filter_app, filter_cons_True by done.
  rewrite (filter_none _ after); [by rewrite last_snoc|].
  intros s' Hin Heq.
  rewrite map_app in Hnd. apply NoDup_app in Hnd as (_ & _ & Hnd).
  cbn in Hnd. apply NoDup_cons in Hnd as [Hnotin _].
  apply Hnotin. rewrite <- Heq. by apply list_elem_of_fmap_2.
Qed.

Lemma snapshot_by_mount_point_round_trip_witness :
  SnapshotSet.snapshot_by_mount_point
    (SnapshotSet.__init__ "bootset0" 1707923080
       [Fixture.snap "root" "/"; Fixture.snap "home" "/home"]) "/home"
  = Ok (Fixture.snap "home" "/home").
Proof.
  apply (snapshot_by_mount_point_round_trip "bootset0" 1707923080
           [Fixture.snap "root" "/"; Fixture.snap "home" "/home"]
           (Fixture.snap "home" "/home")).
  - by_decide.
  - apply elem_of_cons. right. apply elem_of_cons. by left.
Defined.

(** ** The debugging mask *)

Section DebugMask.
Local Open Scope Z_scope.

Lemma mask_in_range (m : Z) : 0 ≤ m ≤ SNAPM_DEBUG_ALL ↔ 0 ≤ m < 2 ^ 4.
Proof. change SNAPM_DEBUG_ALL with 15. change (2 ^ 4) with 16. lia. Qed.

(** Both setters take exactly the masks from [0] to [SNAPM_DEBUG_ALL]; a
    mask outside this range raises [ValueError] and leaves the stored mask as
    it was. *)
Theorem set_debug_mask_accepts_range (mask stored : Z) :
  (0 ≤ mask ≤ SNAPM_DEBUG_ALL →
   set_debug_mask mask stored = (Ok tt, mask)
   ∧ SnapmLogger.set_debug_mask mask stored = (Ok tt, mask))
  ∧ (¬ 0 ≤ mask ≤ SNAPM_DEBUG_ALL →
     (∃ msg, set_debug_mask mask stored = (Raise (Exn ValueError msg), stored))
     ∧ (∃ msg, SnapmLogger.set_debug_mask mask stored
               = (Raise (Exn ValueError msg), stored))).
Proof.
  unfold set_debug_mask, SnapmLogger.set_debug_mask.
  destruct (mask <? 0) eqn:Elo; destruct (mask >? SNAPM_DEBUG_ALL) eqn:Ehi;
    cbn [orb]; split; intros H; try (split; eauto; fail); exfalso; lia.
Qed.

Lemma set_debug_mask_accepts_range_witness :
  set_debug_mask 5 0 = (Ok tt, 5)
  ∧ ∃ msg, SnapmLogger.set_debug_mask 16 2 = (Raise (Exn ValueError msg), 2).
Proof.
  split.
  - apply (proj1 (set_debug_mask_accepts_range 5 0)). by_decide.
  - apply (proj2 (set_debug_mask_accepts_range 16 2)). by_decide.
Defined.

(** A logger passes a debug message on exactly when its mask shares a bit
    with the global mask: never under the global mask [0], and always under
    [SNAPM_DEBUG_ALL] for a logger whose mask is one of the valid non-zero
    ones. *)
Theorem debug_masked_iff_shared_bit (self_mask_bits debug_mask : Z)
    (msg : string) :
  (SnapmLogger.debug_masked self_mask_bits debug_mask msg = Some msg
   ↔ Z.land self_mask_bits debug_mask ≠ 0)
  ∧ SnapmLogger.debug_masked self_mask_bits 0 msg = None
  ∧ (0 < self_mask_bits ≤ SNAPM_DEBUG_ALL →
     SnapmLogger.debug_masked self_mask_bits SNAPM_DEBUG_ALL msg = Some msg).
Proof.
  unfold SnapmLogger.debug_masked, get_debug_mask. split; [|split].
  - destruct (Z.land self_mask_bits debug_mask =? 0) eqn:E.
    + apply Z.eqb_eq in E. split; [done|]. by intros H.
    + apply Z.eqb_neq in E. by split.
  - by rewrite Z.land_0_r.
  - intros H.
    assert (Z.land self_mask_bits SNAPM_DEBUG_ALL = self_mask_bits) as ->.
    { change SNAPM_DEBUG_ALL with (Z.ones 4).
      apply range_land_ones; [lia|]. apply mask_in_range. lia. }
    destruct (self_mask_bits =? 0) eqn:E; [|done].
    apply Z.eqb_eq in E. lia.
Qed.

Lemma debug_masked_iff_shared_bit_witness :
  SnapmLogger.debug_masked SNAPM_DEBUG_COMMAND SNAPM_DEBUG_ALL "Parsed"
  = Some "Parsed".
Proof.
  apply (proj2 (proj2 (debug_masked_iff_shared_bit
                         SNAPM_DEBUG_COMMAND 0 "Parsed"))).
  by_decide.
Defined.

Lemma mask_map_lookup (name : string) (bits : Z) :
  Command.mask_map !! name = Some bits →
  (name, bits) ∈ [("manager", 1); ("command", 2); ("plugins", 4);
                  ("report", 8); ("all", 15)].
Proof. intros H. apply elem_of_list_to_map_2 in H. exact H. Qed.

Lemma mask_map_bits_range (name : string) (bits : Z) :
  Command.mask_map !! name = Some bits → 0 ≤ bits < 2 ^ 4.
Proof.
  intros H%mask_map_lookup. change (2 ^ 4) with 16.
  repeat (apply elem_of_cons in H as [[= -> ->]|H]; [lia|]).
  by apply elem_of_nil in H.
Qed.

Lemma debug_mask_of_range (names : list string) (acc mask : Z) :
  0 ≤ acc < 2 ^ 4 → Command.debug_mask_of names acc = Ok mask →
  0 ≤ mask < 2 ^ 4.
Proof.
  revert acc. induction names as [|n names IH]; intros acc Hacc;
    cbn [Command.debug_mask_of].
  - by intros [= <-].
  - destruct (Command.mask_map !! n) as [bits|] eqn:E; [|done].
    apply IH. apply lor_range; [lia|done|]. by apply (mask_map_bits_range n).
Qed.

Lemma debug_mask_of_unknown (names : list string) (acc : Z) (e : exn) :
  Command.debug_mask_of names acc = Raise e →
  ∃ n, n ∈ names ∧ Command.mask_map !! n = None
       ∧ e = Exn ValueError ("Unknown debug option: " +:+ n).
Proof.
  revert acc. induction names as [|n names IH]; intros acc;
    cbn [Command.debug_mask_of]; [done|].
  destruct (Command.mask_map !! n) as [bits|] eqn:E.
  - intros (n' & Hin & H)%IH. exists n'. split; [by right|done].
  - intros [= <-]. exists n. split; [by left|done].
Qed.

(** [set_debug] keeps the global mask within [0] to [SNAPM_DEBUG_ALL], and
    the only error it can raise is the [ValueError] for a name that is not a
    debug option, in which case the mask is left as it was: the range check
    of [set_debug_mask] never fires. *)
Theorem set_debug_keeps_mask_valid (debug_arg : option string) (stored : Z) :
  0 ≤ stored ≤ SNAPM_DEBUG_ALL →
  0 ≤ (Command.set_debug debug_arg stored).2 ≤ SNAPM_DEBUG_ALL
  ∧ ∀ e, (Command.set_debug debug_arg stored).1 = Raise e →
      (Command.set_debug debug_arg stored).2 = stored
      ∧ ∃ n, n ∈ split "," (default "" debug_arg)
             ∧ Command.mask_map !! n = None
             ∧ e = Exn ValueError ("Unknown debug option: " +:+ n).
Proof.
  intros Hstored. unfold Command.set_debug.
  destruct (truthy debug_arg); cbn [negb]; [|by split].
  destruct (Command.debug_mask_of _ 0) as [mask|e] eqn:E.
  - apply debug_mask_of_range in E; [|by change (2 ^ 4) with 16].
    apply mask_in_range in E.
    rewrite (proj1 (proj1 (set_debug_mask_accepts_range mask stored) E)).
    by split.
  - split; [done|]. intros e' [= <-]. split; [done|].
    by apply debug_mask_of_unknown in E.
Qed.

Lemma set_debug_keeps_mask_valid_witness :
  0 ≤ (Command.set_debug (Some "manager,report") 2).2 ≤ SNAPM_DEBUG_ALL
  ∧ (Command.set_debug (Some "manager, command") 2).2 = 2.
Proof.
  split.
  - apply (set_debug_keeps_mask_valid (Some "manager,report") 2). by_decide.
  - apply (proj2 (set_debug_keeps_mask_valid (Some "manager, command") 2
                    ltac:(by_decide))
             (Exn ValueError "Unknown debug option:  command")).
    reflexivity.
Defined.

Lemma debug_mask_of_land (names : list string) (acc mask bit : Z) :
  Command.debug_mask_of names acc = Ok mask →
  Z.land mask bit ≠ 0
  ↔ Z.land acc bit ≠ 0
    ∨ ∃ n v, n ∈ names ∧ Command.mask_map !! n = Some v ∧ Z.land v bit ≠ 0.
Proof.
  revert acc. induction names as [|n names IH]; intros acc;
    cbn [Command.debug_mask_of].
  - intros [= <-]. split; [by left|].
    intros [H|(n & v & Hin & _)]; [done|]. by apply elem_of_nil in Hin.
  - destruct (Command.mask_map !! n) as [bits|] eqn:E; [|done].
    intros H. rewrite (IH _ H), Z.land_lor_distr_l. split.
    + intros [Hor|(n' & v & Hin & Hn' & Hv)].
      * destruct (decide (Z.land acc bit = 0)) as [Hz|Hnz]; [|by left].
        right. exists n, bits. split; [by left|]. split; [done|].
        intros Hb. apply Hor. rewrite Hz, Hb. done.
      * right. exists n', v. split; [by right|done].
    + intros [Hacc|(n' & v & Hin & Hn' & Hv)].
      * left. intros Hor. apply Z.lor_eq_0_iff in Hor as [? _]. done.
      * apply elem_of_cons in Hin as [->|Hin].
        -- left. intros Hor. apply Z.lor_eq_0_iff in Hor as [_ ?].
           congruence.
        -- right. exists n', v. done.
Qed.

(** After [set_debug] has accepted an argument, the bit of a subsystem is
    set in the global mask exactly when the argument names that subsystem or
    [all]. *)
Theorem set_debug_enables_named (arg : string) (stored mask : Z)
    (name : string) (bit : Z) :
  arg ≠ "" →
  Command.set_debug (Some arg) stored = (Ok tt, mask) →
  (name, bit) ∈ [("manager", SNAPM_DEBUG_MANAGER);
                 ("command", SNAPM_DEBUG_COMMAND);
                 ("plugins", SNAPM_DEBUG_PLUGINS);
                 ("report", SNAPM_DEBUG_REPORT)] →
  Z.land mask bit ≠ 0
  ↔ name ∈ split "," arg ∨ "all" ∈ split "," arg.
Proof.
  intros Harg Hset Hpair. unfold Command.set_debug in Hset.
  assert (truthy (Some arg) = true) as Ht
    by (apply truthy_Some; eauto).
  rewrite Ht in Hset. cbn [negb default from_option id] in Hset.
  destruct (Command.debug_mask_of _ 0) as [mask'|e] eqn:E; [|done].
  pose proof E as Hrange.
  apply debug_mask_of_range in Hrange; [|by change (2 ^ 4) with 16].
  apply mask_in_range in Hrange.
  rewrite (proj1 (proj1 (set_debug_mask_accepts_range mask' stored) Hrange))
    in Hset.
  injection Hset as <-.
  rewrite (debug_mask_of_land _ _ _ bit E), Z.land_0_l. split.
  - intros [?|(n & v & Hin & Hn%mask_map_lookup & Hv)]; [done|].
    repeat (apply elem_of_cons in Hpair as [[= -> ->]|Hpair];
            [repeat (apply elem_of_cons in Hn as [[= -> ->]|Hn];
                     [first [by left | by right | by exfalso]|]);
             by apply elem_of_nil in Hn|]).
    by apply elem_of_nil in Hpair.
  - intros [Hin|Hin]; right.
    + exists name, bit. split; [done|].
      repeat (apply elem_of_cons in Hpair as [[= -> ->]|Hpair];
              [by split|]).
      by apply elem_of_nil in Hpair.
    + exists "all", 15. split; [done|]. split; [done|].
      repeat (apply elem_of_cons in Hpair as [[= -> ->]|Hpair]; [done|]).
      by apply elem_of_nil in Hpair.
Qed.

Lemma set_debug_enables_named_witness :
  Z.land 9 SNAPM_DEBUG_REPORT ≠ 0
  ↔ "report" ∈ split "," "manager,report" ∨ "all" ∈ split "," "manager,report".
Proof.
  apply (set_debug_enables_named "manager,report" 0 9 "report"
           SNAPM_DEBUG_REPORT).
  - discriminate.
  - reflexivity.
  - by_decide.
Defined.

End DebugMask.

(** ** Command layer: report fields *)

Lemma startswith_plus (s : string) :
  startswith s "+" = true ↔ ∃ rest, s = String "+" rest.
Proof.
  destruct s as [|c rest]; cbn [startswith].
  - split; [done|]. by intros (? & ?).
  - rewrite andb_true_r. destruct (Ascii.eqb_spec "+" c) as [Heq|Hne].
    + subst c. split; eauto.
    + split; [done|]. intros (rest' & [= Hc _]). by subst c.
Qed.

(** With a non-empty list of default fields that does not begin with a plus
    sign, the expanded list is never empty and never begins with a plus
    sign; a leading plus sign appends to the defaults; and expanding what has
    been expanded changes nothing. *)
Theorem expand_fields_stable (default_fields : string)
    (output_fields : option string) :
  default_fields ≠ "" → startswith default_fields "+" = false →
  let expanded := Command._expand_fields default_fields output_fields in
  expanded ≠ ""
  ∧ startswith expanded "+" = false
  ∧ (∀ rest, output_fields = Some (String "+" rest) →
       expanded = default_fields +:+ "," +:+ rest)
  ∧ Command._expand_fields default_fields (Some expanded) = expanded.
Proof.
  intros Hne Hplus expanded.
  assert (Hcat : ∀ rest, default_fields +:+ "," +:+ rest ≠ ""
                  ∧ startswith (default_fields +:+ "," +:+ rest) "+" = false).
  { intros rest. destruct default_fields as [|c d]; [done|].
    split; [done|]. exact Hplus. }
  assert (Hshape : expanded ≠ "" ∧ startswith expanded "+" = false).
  { unfold expanded, Command._expand_fields.
    destruct output_fields as [fields|]; [|done].
    destruct (String.eqb_spec fields ""); [done|].
    destruct (startswith fields "+") eqn:E; [apply Hcat|done]. }
  destruct Hshape as [Hexp Hexp_plus]. repeat split; try done.
  - intros rest ->. by unfold expanded, Command._expand_fields.
  - unfold Command._expand_fields at 1.
    destruct (String.eqb_spec expanded ""); [done|]. by rewrite Hexp_plus.
Qed.

Lemma expand_fields_stable_witness :
  Command._expand_fields Command._DEFAULT_SNAPSET_FIELDS (Some "+uuid")
  = "name,time,nr_snapshots,status,mountpoints,uuid".
Proof.
  apply (proj1 (proj2 (proj2
           (expand_fields_stable Command._DEFAULT_SNAPSET_FIELDS
              (Some "+uuid") ltac:(discriminate) eq_refl))) "uuid").
  reflexivity.
Defined.

(** ** Command layer: list commands *)

Section GenericList.
Context {Opts W : Type}.
Context (h : handler (Command.list_call Opts) Command.list_ret W).
Context (cmd_args : Command.ListArgs.t) (select : Selection.t) (opts : Opts).
Context (verbose_fields : string) (w : W).

Let fields : option string :=
  if truthy (Command.ListArgs.options cmd_args)
  then Command.ListArgs.options cmd_args
  else if bool_decide (default 0%Z (Command.ListArgs.verbose cmd_args) ≠ 0%Z)
  then Some verbose_fields
  else None.
Let report : Command.list_call Opts :=
  Command.print_fn select fields opts (Command.ListArgs.sort cmd_args).
Let out := run (Command._generic_list_cmd cmd_args select opts verbose_fields) h w.

(** A list command calls its report function once, with the fields of [-o]
    when given and else the verbose fields under [-v].  Without [--debug] a
    [ValueError] of the report is printed and becomes the status [1], while
    any other exception propagates; with [--debug] every exception
    propagates and nothing is printed. *)
Theorem generic_list_cmd_status :
  (∃ raised rest, out.2 = Called report raised :: rest)
  ∧ ((h report w).1 = Ok tt → out.1.1 = Ok 0%Z ∧ calls out.2 = [report])
  ∧ (∀ e, (h report w).1 = Raise e →
       (truthy (Command.ListArgs.debug cmd_args) = true
        ∨ isinstance e ValueError = false →
        out.1.1 = Raise e ∧ calls out.2 = [report])
       ∧ (truthy (Command.ListArgs.debug cmd_args) = false →
          isinstance e ValueError = true →
          calls out.2 = [report; Command.print (exn_msg e)]
          ∧ ((h (Command.print (exn_msg e)) (h report w).2).1 = Ok tt →
             out.1.1 = Ok 1%Z))).
Proof.
  subst out. unfold Command._generic_list_cmd. fold fields. fold report.
  unfold mbind, prog_bind, mret, prog_ret.
  destruct (truthy (Command.ListArgs.debug cmd_args)) eqn:Ed;
    cbn [bind perform run try_except];
    destruct (h report w) as [[[]|e] w1] eqn:Er;
    cbn [bind perform run try_except raised_of fst snd calls omap].
  - split; [eauto|]. split; [by split|]. intros e H; discriminate H.
  - split; [eauto|]. split; [intros H; discriminate H|].
    intros e' H; injection H as <-.
    split; [by split|intros H; discriminate H].
  - split; [eauto|]. split; [by split|]. intros e H; discriminate H.
  - unfold caught_by. cbn [existsb]. rewrite orb_false_r.
    destruct (isinstance e ValueError) eqn:Ev;
      cbn [bind perform run try_except raised_of fst snd calls omap].
    + destruct (h (Command.print (exn_msg e)) w1) as [[[]|e'] w2] eqn:Ep;
        cbn [bind perform run try_except raised_of fst snd calls omap app].
      * split; [eauto|]. split; [intros H; discriminate H|].
        intros e' H; injection H as <-.
        split; [intros [H|H]; congruence|]. by split.
      * split; [eauto|]. split; [intros H; discriminate H|].
        intros e'' H; injection H as <-.
        split; [intros [H|H]; congruence|]. intros _ _.
        split; [done|]. rewrite Ep. intros H; discriminate H.
    + split; [eauto|]. split; [intros H; discriminate H|].
      intros e' H; injection H as <-.
      split; [by split|]. intros _ H; congruence.
Qed.

End GenericList.

Lemma generic_list_cmd_status_witness :
  let cmd_args := Command.ListArgs.mk (Some "bogus") (Some 1%Z) None None in
  let out :=
    run (Command._generic_list_cmd cmd_args (Command.Selection_name "daily")
           tt Command._VERBOSE_SNAPSET_FIELDS)
        Fixture.reporter [] in
  out.1.1 = Ok 1%Z
  ∧ calls out.2
    = [Command.print_fn (Command.Selection_name "daily") (Some "bogus") tt None;
       Command.print "unknown field: bogus"].
Proof.
  intros cmd_args out.
  destruct (generic_list_cmd_status Fixture.reporter cmd_args
              (Command.Selection_name "daily") tt
              Command._VERBOSE_SNAPSET_FIELDS [])
    as (_ & _ & Hraise).
  destruct (Hraise (Exn ValueError "unknown field: bogus") eq_refl)
    as (_ & Hcaught).
  destruct (Hcaught eq_refl eq_refl) as (Hcalls & Hstatus).
  split; [exact (Hstatus eq_refl)|exact Hcalls].
Defined.

(** ** Command layer: more on [create_snapset] *)

Lemma snapm_error_not_handled (e : exn) :
  isinstance e SnapmError = true →
  caught_by e [OSError; ValueError; TypeError] = false.
Proof. destruct e as [[] msg]; cbn; done. Qed.

Section CreateSnapset.
Context {W : Type} (h : handler Manager.call Manager.ret_ty W).
Context (name : string) (mount_points : list string).

Let create := Manager.create_snapshot_set name mount_points.

(** Without [boot] and [rollback] the manager is called once, to create the
    set: the set is not activated, and the outcome of the call is the
    outcome of [create_snapset]. *)
Theorem create_snapset_plain (w : W) :
  let out := run (Command.create_snapset name mount_points false false) h w in
  calls out.2 = [create]
  ∧ out.1.2 = (h create w).2
  ∧ out.1.1 = match (h create w).1 with
              | Ok snapset => Ok (Some snapset)
              | Raise e => Raise e
              end.
Proof.
  unfold Command.create_snapset, mbind, prog_bind, mret, prog_ret.
  cbn [bind perform run try_except orb]. fold create.
  by destruct (h create w) as [[snapset|e] w1].
Qed.

(** A failure of [create_snapshot_set], or of the activation that precedes
    the boot entries, propagates at once: nothing is called afterwards, so a
    set whose activation failed is not deleted. *)
Theorem create_snapset_early_failure (boot rollback : bool) (w : W) (e : exn) :
  let out := run (Command.create_snapset name mount_points boot rollback) h w in
  (∀ w1, h create w = (Raise e, w1) →
     out = (Raise e, w1, [Called create (Some e)]))
  ∧ (∀ snapset w1 w2,
       boot || rollback = true →
       h create w = (Ok snapset, w1) →
       h (Manager.activate_snapshot_sets
            (Command.Selection_name (SnapshotSet.name snapset))) w1
       = (Raise e, w2) →
       out = (Raise e, w2,
              [Called create None;
               Called (Manager.activate_snapshot_sets
                         (Command.Selection_name (SnapshotSet.name snapset)))
                      (Some e)])).
Proof.
  unfold Command.create_snapset, mbind, prog_bind, mret, prog_ret.
  cbn [bind perform run try_except]. fold create. split.
  - intros w1 ->. done.
  - intros snapset w1 w2 -> ->. cbn [bind perform run try_except].
    intros ->. done.
Qed.

End CreateSnapset.

Lemma create_snapset_early_failure_witness :
  run (Command.create_snapset "daily" ["/"; "/home"] true false)
      Manager.reference (Fixture.created None)
  = (Raise (Exn SnapmExistsError "snapshot set exists"), Fixture.created None,
     [Called (Manager.create_snapshot_set "daily" ["/"; "/home"])
        (Some (Exn SnapmExistsError "snapshot set exists"))]).
Proof.
  apply (proj1 (create_snapset_early_failure Manager.reference
                  "daily" ["/"; "/home"] true false (Fixture.created None)
                  (Exn SnapmExistsError "snapshot set exists"))).
  reflexivity.
Defined.

Section Attach.
Context {W : Type} (h : handler Manager.call Manager.ret_ty W).
Context (name : string) (mount_points : list string).
Context (snapset : SnapshotSet.t) (w0 w1 w2 : W) (activated : Z).

Let create := Manager.create_snapshot_set name mount_points.
Let select := Command.Selection_name (SnapshotSet.name snapset).
Let activate := Manager.activate_snapshot_sets select.
Let attach_boot :=
  Manager.create_snapshot_set_boot_entry (Some (SnapshotSet.name snapset)) None.
Let attach_rollback :=
  Manager.create_snapshot_set_rollback_entry
    (Some (SnapshotSet.name snapset)) None.
Let delete := Manager.delete_snapshot_sets select.
Let handled := [OSError; ValueError; TypeError].

Context (Hcreate : h create w0 = (Ok snapset, w1)).
Context (Hactivate : h activate w1 = (Ok activated, w2)).

Ltac run_create :=
  unfold Command.create_snapset, mbind, prog_bind, mret, prog_ret;
  cbn [bind perform run try_except orb]; fold create; rewrite Hcreate;
  cbn [bind perform run try_except orb]; fold select activate;
  rewrite ?orb_true_r; cbn [bind perform run try_except orb];
  rewrite Hactivate; cbn [bind perform run try_except orb raised_of].

(** When attaching the boot entry, or the rollback entry, fails with an
    exception that is not an [OSError], a [ValueError] or a [TypeError] (so
    with any [SnapmError]), the exception propagates, nothing is logged and
    [delete_snapshot_sets] is not called: the set is left as it is. *)
Theorem create_snapset_unhandled_failure_propagates
    (boot rollback : bool) (e : exn) (w3 : W) :
  caught_by e handled = false →
  let out := run (Command.create_snapset name mount_points boot rollback) h w0 in
  (boot = true → h attach_boot w2 = (Raise e, w3) →
   out = (Raise e, w3,
          [Called create None; Called activate None;
           Called attach_boot (Some e)]))
  ∧ (boot = false → rollback = true → h attach_rollback w2 = (Raise e, w3) →
     out = (Raise e, w3,
            [Called create None; Called activate None;
             Called attach_rollback (Some e)]))
  ∧ (boot = true → rollback = true →
     ∀ w2', h attach_boot w2 = (Ok tt, w2') →
     h attach_rollback w2' = (Raise e, w3) →
     out = (Raise e, w3,
            [Called create None; Called activate None;
             Called attach_boot None; Called attach_rollback (Some e)])).
Proof.
  intros Hcaught out. subst out. split; [|split].
  - intros -> Hboot. run_create. fold attach_boot. rewrite Hboot.
    cbn [bind perform run try_except orb raised_of]. fold handled.
    by rewrite Hcaught.
  - intros -> -> Hrollback. run_create. fold attach_rollback.
    rewrite Hrollback.
    cbn [bind perform run try_except orb raised_of]. fold handled.
    by rewrite Hcaught.
  - intros -> -> w2' Hboot Hrollback. run_create. fold attach_boot.
    rewrite Hboot. cbn [bind perform run try_except orb raised_of].
    fold attach_rollback. rewrite Hrollback.
    cbn [bind perform run try_except orb raised_of]. fold handled.
    by rewrite Hcaught.
Qed.

(** When the deletion that follows a handled failure fails itself, it is the
    exception of the deletion that reaches the caller; the failure of the
    attachment is left in the log only. *)
Theorem create_snapset_delete_failure_surfaces
    (rollback : bool) (e e' : exn) (w3 w4 : W) :
  caught_by e handled = true →
  h attach_boot w2 = (Raise e, w3) →
  h delete w3 = (Raise e', w4) →
  run (Command.create_snapset name mount_points true rollback) h w0
  = (Raise e', w4,
     [Called create None; Called activate None; Called attach_boot (Some e);
      Logged ("Failed to create snapshot set boot entry: " +:+ exn_msg e);
      Called delete (Some e')]).
Proof.
  intros Hcaught Hboot Hdelete. run_create. fold attach_boot. rewrite Hboot.
  cbn [bind perform run try_except orb raised_of]. fold handled.
  rewrite Hcaught.
  cbn [bind perform run try_except orb raised_of log_error].
  fold delete. by rewrite Hdelete.
Qed.

(** When every call succeeds the manager is asked, in this order, to create
    the set, to activate it, to attach the boot entry if wanted and then the
    rollback entry if wanted; the set that was created is returned and
    nothing is logged or deleted. *)
Theorem create_snapset_success (boot rollback : bool) (w3 w4 : W) :
  boot || rollback = true →
  (if boot then h attach_boot w2 = (Ok tt, w3) else w3 = w2) →
  (if rollback then h attach_rollback w3 = (Ok tt, w4) else w4 = w3) →
  run (Command.create_snapset name mount_points boot rollback) h w0
  = (Ok (Some snapset), w4,
     [Called create None; Called activate None]
     ++ (if boot then [Called attach_boot None] else [])
     ++ (if rollback then [Called attach_rollback None] else [])).
Proof.
  intros Hany Hboot Hrollback.
  unfold Command.create_snapset, mbind, prog_bind, mret, prog_ret.
  cbn [bind perform run try_except]. fold create. rewrite Hcreate.
  cbn [bind perform run try_except]. fold select activate. rewrite Hany.
  cbn [bind perform run try_except]. rewrite Hactivate.
  cbn [bind perform run try_except raised_of].
  destruct boot, rollback; try discriminate Hany;
    cbn [bind perform run try_except raised_of app].
  - fold attach_boot. rewrite Hboot.
    cbn [bind perform run try_except raised_of app].
    fold attach_rollback. by rewrite Hrollback.
  - fold attach_boot. rewrite Hboot. by subst w4.
  - subst w3. fold attach_rollback. by rewrite Hrollback.
Qed.

End Attach.

Lemma create_snapset_unhandled_failure_propagates_witness :
  let e := Exn SnapmCalloutError "grub2-mkconfig failed" in
  (run (Command.create_snapset "daily" ["/"; "/home"] true false)
       Manager.reference (Fixture.empty_world (Some e))).1
  = (Raise e, Fixture.activated (Some e)).
Proof.
  intros e.
  destruct (create_snapset_unhandled_failure_propagates
              Manager.reference "daily" ["/"; "/home"] Fixture.daily
              (Fixture.empty_world (Some e)) (Fixture.created (Some e))
              (Fixture.activated (Some e)) 2
              ltac:(vm_compute; reflexivity) ltac:(vm_compute; reflexivity)
              true false e (Fixture.activated (Some e))
              (snapm_error_not_handled e eq_refl))
    as (Hboot & _).
  exact (f_equal fst (Hboot eq_refl ltac:(vm_compute; reflexivity))).
Defined.

Lemma create_snapset_delete_failure_surfaces_witness :
  let e := Exn OSError "No space left on device" in
  (run (Command.create_snapset "daily" ["/"; "/home"] true false)
       Fixture.busy (Fixture.empty_world (Some e))).1
  = (Raise (Exn OSError "Device or resource busy"),
     Fixture.activated (Some e)).
Proof.
  intros e.
  exact (f_equal fst
           (create_snapset_delete_failure_surfaces
              Fixture.busy "daily" ["/"; "/home"] Fixture.daily
              (Fixture.empty_world (Some e)) (Fixture.created (Some e))
              (Fixture.activated (Some e)) 2
              ltac:(vm_compute; reflexivity) ltac:(vm_compute; reflexivity)
              false e (Exn OSError "Device or resource busy")
              (Fixture.activated (Some e)) (Fixture.activated (Some e))
              eq_refl ltac:(vm_compute; reflexivity)
              ltac:(vm_compute; reflexivity))).
Defined.

Lemma create_snapset_success_witness :
  let out :=
    run (Command.create_snapset "daily" ["/"; "/home"] true true)
        Manager.reference (Fixture.empty_world None) in
  out.1.1 = Ok (Some Fixture.daily)
  ∧ calls out.2
    = [Manager.create_snapshot_set "daily" ["/"; "/home"];
       Manager.activate_snapshot_sets (Command.Selection_name "daily");
       Manager.create_snapshot_set_boot_entry (Some "daily") None;
       Manager.create_snapshot_set_rollback_entry (Some "daily") None].
Proof.
  intros out.
  pose (w3 := (Manager.reference
                 (Manager.create_snapshot_set_boot_entry (Some "daily") None)
                 (Fixture.activated None)).2).
  pose (w4 := (Manager.reference
                 (Manager.create_snapshot_set_rollback_entry
                    (Some "daily") None) w3).2).
  pose proof (create_snapset_success
                Manager.reference "daily" ["/"; "/home"] Fixture.daily
                (Fixture.empty_world None) (Fixture.created None)
                (Fixture.activated None) 2
                ltac:(vm_compute; reflexivity) ltac:(vm_compute; reflexivity)
                true true w3 w4 eq_refl
                ltac:(vm_compute; reflexivity) ltac:(vm_compute; reflexivity))
    as Hrun.
  fold out in Hrun. rewrite Hrun. split; reflexivity.
Defined.

Ltac next_call h :=
  match goal with
  | |- context [h ?c ?w] =>
      let r := fresh "r" in let w' := fresh "w" in let E := fresh "E" in
      destruct (h c w) as [[r|r] w'] eqn:E
  | |- context [caught_by ?e ?l] =>
      let E := fresh "Ecaught" in destruct (caught_by e l) eqn:E
  end;
  cbn [bind perform run try_except orb raised_of log_error].

Ltac not_in_list H :=
  repeat (apply elem_of_cons in H as [H|H]; [discriminate H|]);
  by apply elem_of_nil in H.

(** [create_snapset] calls [delete_snapshot_sets] only to unwind: a deletion
    in the trace comes after an attachment that failed with a handled
    exception.  [None] is returned only after a deletion that returned, and
    a set is returned only when no call has failed, in which case it is the
    set that [create_snapshot_set] returned. *)
Theorem create_snapset_deletes_only_to_unwind {W}
    (h : handler Manager.call Manager.ret_ty W)
    (name : string) (mount_points : list string) (boot rollback : bool)
    (w : W) :
  let out := run (Command.create_snapset name mount_points boot rollback) h w in
  (∀ selection,
     Manager.delete_snapshot_sets selection ∈ calls out.2 →
     ∃ c e, Called c (Some e) ∈ out.2
            ∧ caught_by e [OSError; ValueError; TypeError] = true
            ∧ ∃ n u, c = Manager.create_snapshot_set_boot_entry n u
                     ∨ c = Manager.create_snapshot_set_rollback_entry n u)
  ∧ (out.1.1 = Ok None →
     ∃ selection,
       Called (Manager.delete_snapshot_sets selection) None ∈ out.2)
  ∧ (∀ snapset, out.1.1 = Ok (Some snapset) →
       raised out.2 = [] ∧ logged out.2 = []
       ∧ (h (Manager.create_snapshot_set name mount_points) w).1 = Ok snapset).
Proof.
  unfold Command.create_snapset, mbind, prog_bind, mret, prog_ret.
  cbn [bind perform run try_except orb raised_of log_error].
  destruct (h (Manager.create_snapshot_set name mount_points) w)
    as [[snapset|e] w1] eqn:Ecreate;
    cbn [bind perform run try_except orb raised_of log_error].
  2: { split; [intros sel H; cbn in H; not_in_list H|].
       split; [intros H; discriminate H|intros ss H; discriminate H]. }
  destruct boot, rollback;
    cbn [bind perform run try_except orb raised_of log_error];
    repeat next_call h;
    (split; [intros sel Hin; cbn in Hin |
      split; [intros Hnone; cbn in Hnone |
              intros ss Hsome; cbn in Hsome |- *]]);
    try discriminate; try (not_in_list Hin);
    try (injection Hsome as <-; done);
    try (eexists; cbn; repeat first [apply list_elem_of_here
                                    | apply list_elem_of_further]; fail);
    try (eexists _, _; split;
         [cbn; repeat first [apply list_elem_of_here
                            | apply list_elem_of_further]
         |split; [eassumption|eauto]]; fail).
Qed.

Lemma create_snapset_deletes_only_to_unwind_witness :
  ∃ selection,
    Called (Manager.delete_snapshot_sets selection) None
    ∈ (run (Command.create_snapset "daily" ["/"; "/home"] true false)
           Manager.reference
           (Fixture.empty_world (Some (Exn OSError "No space left on device")))).2.
Proof.
  apply (proj1 (proj2 (create_snapset_deletes_only_to_unwind
                         Manager.reference "daily" ["/"; "/home"] true false
                         (Fixture.empty_world
                            (Some (Exn OSError "No space left on device")))))).
  vm_compute. reflexivity.
Defined.

(** ** SnapshotSet: the setter and other exceptions *)

Section SetterAbort.
Context {W : Type} (h : handler Snapshot.call Snapshot.ret_ty W).

Lemma run_autoactivate_loop_app (l1 l2 : list Snapshot.t) (value : bool) (w : W) :
  run (SnapshotSet.autoactivate_loop (l1 ++ l2) value) h w
  = match run (SnapshotSet.autoactivate_loop l1 value) h w with
    | (Ok _, w', t) =>
        let '(r, w'', t') :=
          run (SnapshotSet.autoactivate_loop l2 value) h w' in
        (r, w'', t ++ t')
    | (Raise e, w', t) => (Raise e, w', t)
    end.
Proof.
  revert w. induction l1 as [|s l1 IH]; intros w.
  - cbn. by destruct (run _ h w) as [[r w'] t].
  - cbn [app SnapshotSet.autoactivate_loop].
    change (mbind ?f ?p) with (bind p f). rewrite !run_bind.
    destruct (run (try_except _ _ _) h w) as [[[[]|e] w1] t1]; [|done].
    rewrite IH.
    destruct (run (SnapshotSet.autoactivate_loop l1 value) h w1)
      as [[[[]|e] w2] t2]; [|done].
    destruct (run (SnapshotSet.autoactivate_loop l2 value) h w2)
      as [[r w3] t3].
    by rewrite app_assoc.
Qed.

(** An exception that is not a [SnapmError] ends the setter: when the plugin
    raises one for a member, it propagates to the caller and the members
    that come later in the set are not called at all. *)
Theorem autoactivate_setter_aborts_on_other_errors
    (name : string) (timestamp : Z) (before after : list Snapshot.t)
    (s : Snapshot.t) (value : bool) (w w1 w2 : W)
    (t1 : list (item Snapshot.call)) (e : exn) :
  let call :=
    Snapshot.provider_set_autoactivate (Snapshot.provider s) (Snapshot.name s)
      value in
  run (SnapshotSet.autoactivate_loop before value) h w = (Ok tt, w1, t1) →
  h call w1 = (Raise e, w2) →
  isinstance e SnapmError = false →
  run (SnapshotSet.set_autoactivate
         (SnapshotSet.__init__ name timestamp (before ++ s :: after)) value)
      h w
  = (Raise e, w2, t1 ++ [Called call (Some e)]).
Proof.
  intros call Hbefore Hcall He.
  unfold SnapshotSet.set_autoactivate, SnapshotSet.snapshots.
  cbn [SnapshotSet._snapshots SnapshotSet.__init__].
  rewrite run_autoactivate_loop_app, Hbefore.
  cbn [SnapshotSet.autoactivate_loop].
  change (mbind ?f ?p) with (bind p f). rewrite run_bind, run_try_except.
  unfold Snapshot.set_autoactivate.
  change (mbind ?f ?p) with (bind p f). rewrite run_bind.
  subst call. unfold Snapshot.provider in *.
  cbn [run perform]. rewrite Hcall.
  cbn [run perform raised_of caught_by existsb]. by rewrite He.
Qed.

End SetterAbort.

Lemma autoactivate_setter_aborts_on_other_errors_witness :
  let out :=
    run (SnapshotSet.set_autoactivate
           (SnapshotSet.__init__ "bootset0" 1707923080
              ([Fixture.snap "root" "/"]
               ++ Fixture.snap "home" "/home" :: [Fixture.snap "var" "/var"]))
           true)
        (Fixture.crashing_plugin ["home"]) [] in
  out.1 = (Raise (Exn OSError "lvchange: command not found"), [("root", true)]).
Proof.
  intros out.
  exact (f_equal fst
           (autoactivate_setter_aborts_on_other_errors
              (Fixture.crashing_plugin ["home"]) "bootset0" 1707923080
              [Fixture.snap "root" "/"] [Fixture.snap "var" "/var"]
              (Fixture.snap "home" "/home") true
              [] [("root", true)] [("root", true)]
              [Called (Snapshot.provider_set_autoactivate "lvm2" "root" true)
                 None;
               Called (Snapshot.invalidate_cache "root") None]
              (Exn OSError "lvchange: command not found")
              eq_refl eq_refl eq_refl)).
Defined.

Lemma is_single_not_null_witness :
  Selection.is_null
    (Selection.mk None (Some "453bcf0f-fa6f-5ea4-9f1e-accef91cdb46")
       None None None None None None None) = false.
Proof.
  apply (is_single_not_null
           (Selection.mk None (Some "453bcf0f-fa6f-5ea4-9f1e-accef91cdb46")
              None None None None None None None)).
  reflexivity.
Defined.

(** ** Indentation of multi-line text *)

Section StrIndent.

Lemma str_app_cons (c : Ascii.ascii) (a b : string) :
  String c a +:+ b = String c (a +:+ b).
Proof. reflexivity. Qed.

Lemma str_app_nil_l (b : string) : "" +:+ b = b.
Proof. reflexivity. Qed.

Lemma str_app_nil_r (s : string) : s +:+ "" = s.
Proof.
  induction s as [|c s IH]; [reflexivity|].
  rewrite str_app_cons, IH. reflexivity.
Qed.

Lemma str_app_assoc (a b c : string) : (a +:+ b) +:+ c = a +:+ (b +:+ c).
Proof.
  induction a as [|x a IH]; [reflexivity|].
  rewrite !str_app_cons, IH. reflexivity.
Qed.

Lemma no_line_break_cons (c : Ascii.ascii) (l : string) :
  no_line_break (String c l) = true →
  line_break c = false ∧ no_line_break l = true.
Proof.
  cbn [no_line_break]. intros H.
  apply andb_prop in H as [H Hl]. apply andb_prop in H as [Hc _].
  apply negb_true_iff in Hc. auto.
Qed.

Lemma splitlines_from_line (l rest line : string) :
  no_line_break l = true →
  splitlines_from (l +:+ String (Ascii.ascii_of_N 10) rest) line
  = (line +:+ l) :: splitlines_from rest "".
Proof.
  revert line. induction l as [|c l IH]; intros line Hl.
  - rewrite str_app_nil_r, str_app_nil_l. destruct rest; reflexivity.
  - cbn [no_line_break] in Hl.
    apply andb_prop in Hl as [Hl Hrest]. apply andb_prop in Hl as [Hc Hseq].
    apply negb_true_iff in Hc.
    specialize (IH (line +:+ String c "") Hrest).
    rewrite str_app_assoc, str_app_cons, str_app_nil_l in IH.
    rewrite str_app_cons.
    cbn [splitlines_from]. rewrite Hc.
    destruct l as [|c1 l].
    + rewrite str_app_nil_l in IH |- *.
      destruct rest as [|c2 rest2].
      * replace ((ord c =? 194)%N && (ord (ascii_of_N 10) =? 133)%N)
          with false by (rewrite andb_comm; reflexivity).
        exact IH.
      * replace ((ord c =? 194)%N && (ord (ascii_of_N 10) =? 133)%N)
          with false by (rewrite andb_comm; reflexivity).
        replace ((ord c =? 226)%N && (ord (ascii_of_N 10) =? 128)%N)
          with false by (rewrite andb_comm; reflexivity).
        exact IH.
    + apply andb_prop in Hseq as [H2 H3]. apply negb_true_iff in H2.
      rewrite str_app_cons in IH |- *.
      destruct l as [|c2 l].
      * rewrite str_app_nil_l in IH |- *. rewrite H2.
        replace ((ord (ascii_of_N 10) =? 168)%N || (ord (ascii_of_N 10) =? 169)%N)
          with false by reflexivity.
        rewrite andb_false_r. exact IH.
      * apply negb_true_iff in H3.
        rewrite str_app_cons in IH |- *. rewrite H2, H3.
        exact IH.
Qed.

Lemma splitlines_from_last (l line : string) :
  no_line_break l = true →
  splitlines_from l line
  = if String.eqb (line +:+ l) "" then [] else [line +:+ l].
Proof.
  revert line. induction l as [|c l IH]; intros line Hl.
  - rewrite str_app_nil_r. reflexivity.
  - cbn [no_line_break] in Hl.
    apply andb_prop in Hl as [Hl Hrest]. apply andb_prop in Hl as [Hc Hseq].
    apply negb_true_iff in Hc.
    specialize (IH (line +:+ String c "") Hrest).
    rewrite str_app_assoc, str_app_cons, str_app_nil_l in IH.
    cbn [splitlines_from]. rewrite Hc.
    destruct l as [|c1 l]; [exact IH|].
    apply andb_prop in Hseq as [H2 H3]. apply negb_true_iff in H2.
    destruct l as [|c2 l].
    + rewrite H2. exact IH.
    + apply negb_true_iff in H3. rewrite H2, H3. exact IH.
Qed.

Lemma splitlines_join (lines : list string) :
  forallb no_line_break lines = true →
  last lines ≠ Some "" →
  splitlines (join (String (Ascii.ascii_of_N 10) "") lines) = lines.
Proof.
  unfold splitlines.
  induction lines as [|l lines IH]; intros Hall Hlast; [reflexivity|].
  cbn [forallb] in Hall. apply andb_prop in Hall as [Hl Hall].
  destruct lines as [|l2 lines].
  - cbn [join]. rewrite (splitlines_from_last l "" Hl), str_app_nil_l.
    destruct (String.eqb_spec l "") as [->|_]; [|reflexivity].
    now contradiction Hlast.
  - change (join ?sep (l :: l2 :: lines))
      with (l +:+ sep +:+ join sep (l2 :: lines)).
    rewrite str_app_cons, str_app_nil_l.
    rewrite (splitlines_from_line l _ "" Hl), str_app_nil_l.
    f_equal. apply IH; [exact Hall|exact Hlast].
Qed.

Lemma fold_indent (indent : Z) (lines : list string) (acc : string) :
  lines ≠ [] →
  fold_left (fun outstr line => outstr +:+ spaces indent +:+ line
                                +:+ String (Ascii.ascii_of_N 10) "")
            lines acc
  = acc +:+ join (String (Ascii.ascii_of_N 10) "")
                 (map (fun l => spaces indent +:+ l) lines)
    +:+ String (Ascii.ascii_of_N 10) "".
Proof.
  revert acc. induction lines as [|l lines IH]; intros acc Hne; [done|].
  destruct lines as [|l2 lines].
  - cbn [fold_left map join]. now rewrite !str_app_assoc.
  - cbn [fold_left]. cbn [fold_left] in IH. rewrite IH by done.
    cbn [map].
    change (join ?sep (?a :: ?b :: ?r)) with (a +:+ sep +:+ join sep (b :: r)).
    rewrite !str_app_assoc. reflexivity.
Qed.

Lemma rstrip_newlines_app_newline (a : string) :
  rstrip_newlines (a +:+ String (Ascii.ascii_of_N 10) "") = rstrip_newlines a.
Proof.
  induction a as [|x a IH]; [reflexivity|].
  rewrite str_app_cons. cbn [rstrip_newlines]. rewrite IH. reflexivity.
Qed.

Lemma rstrip_newlines_app (a b : string) :
  rstrip_newlines b = b → b ≠ "" → rstrip_newlines (a +:+ b) = a +:+ b.
Proof.
  intros Hb Hne. induction a as [|x a IH]; [exact Hb|].
  rewrite str_app_cons. cbn [rstrip_newlines]. rewrite IH.
  destruct (String.eqb_spec (a +:+ b) "") as [Heq|_]; [|reflexivity].
  destruct a; [now rewrite str_app_nil_l in Heq | discriminate Heq].
Qed.

Lemma rstrip_newlines_no_line_break (l : string) :
  no_line_break l = true → rstrip_newlines l = l.
Proof.
  induction l as [|c l IH]; intros Hl; [reflexivity|].
  apply no_line_break_cons in Hl as [Hc Hl].
  cbn [rstrip_newlines]. rewrite (IH Hl).
  destruct (N.eqb_spec (ord c) 10) as [Heq|_];
    [|now rewrite andb_false_r].
  unfold line_break in Hc. rewrite Heq in Hc. discriminate Hc.
Qed.

Lemma rstrip_newlines_join (f : string → string) (lines : list string) :
  (∀ l, f l = f "" +:+ l) →
  forallb no_line_break lines = true →
  lines ≠ [] →
  last lines ≠ Some "" →
  let joined := join (String (Ascii.ascii_of_N 10) "") (map f lines) in
  rstrip_newlines joined = joined ∧ joined ≠ "".
Proof.
  intros Hf. induction lines as [|l lines IH]; intros Hall Hne Hlast; [done|].
  cbn [forallb] in Hall. apply andb_prop in Hall as [Hl Hall].
  destruct lines as [|l2 lines].
  - cbn [map join]. rewrite Hf.
    assert (l ≠ "") as Hl0 by (intros ->; now apply Hlast).
    split.
    + apply rstrip_newlines_app; [|exact Hl0].
      now apply rstrip_newlines_no_line_break.
    + destruct (f ""); [now rewrite str_app_nil_l | discriminate].
  - destruct (IH Hall ltac:(done) Hlast) as [Hfix Hne'].
    change (map f (l :: l2 :: lines)) with (f l :: f l2 :: map f lines).
    change (map f (l2 :: lines)) with (f l2 :: map f lines) in Hfix, Hne'.
    cbn zeta in Hfix, Hne' |- *.
    change (join ?sep (f l :: f l2 :: ?r))
      with (f l +:+ sep +:+ join sep (f l2 :: r)).
    split.
    + rewrite <- str_app_assoc. apply rstrip_newlines_app; assumption.
    + destruct (f l); [rewrite str_app_nil_l|]; discriminate.
Qed.

(** [_str_indent] indents every line: for text made of lines that
    hold no line boundary and whose last line is not empty, the result is
    the lines, each one behind [indent] spaces, joined by newlines, with no
    newline at the end; one newline at the end of a text that has lines
    changes nothing. *)
Theorem str_indent_indents_every_line (lines : list string) (indent : Z) :
  forallb no_line_break lines = true →
  last lines ≠ Some "" →
  let newline := String (Ascii.ascii_of_N 10) "" in
  let indented := join newline (map (fun l => spaces indent +:+ l) lines) in
  Command._str_indent (join newline lines) indent = indented
  ∧ (lines ≠ [] →
     Command._str_indent (join newline lines +:+ newline) indent = indented).
Proof.
  intros Hall Hlast newline indented. subst indented newline.
  assert (lines ≠ [] →
          splitlines (join (String (ascii_of_N 10) "") lines
                      +:+ String (ascii_of_N 10) "") = lines) as Hnl.
  { destruct lines as [|l lines]; [done|]. intros _.
    rewrite <- (splitlines_join _ Hall Hlast) at 2.
    unfold splitlines.
    revert l Hall Hlast. induction lines as [|l2 lines IH]; intros l Hall Hlast.
    - cbn [forallb] in Hall. apply andb_prop in Hall as [Hl _].
      cbn [join]. rewrite (splitlines_from_line l "" "" Hl).
      rewrite (splitlines_from_last l "" Hl), str_app_nil_l.
      destruct (String.eqb_spec l "") as [->|_]; [|reflexivity].
      now contradiction Hlast.
    - cbn [forallb] in Hall. apply andb_prop in Hall as [Hl Hall].
      change (join ?sep (l :: l2 :: lines))
        with (l +:+ sep +:+ join sep (l2 :: lines)).
      rewrite !str_app_assoc, !str_app_cons, !str_app_nil_l.
      rewrite !(splitlines_from_line l _ "" Hl).
      f_equal. apply IH; [exact Hall|exact Hlast]. }
  unfold Command._str_indent. cbn zeta.
  rewrite (splitlines_join _ Hall Hlast).
  destruct lines as [|l lines]; [split; [reflexivity|done]|].
  rewrite Hnl by done.
  rewrite (fold_indent indent (l :: lines) "") by done.
  rewrite str_app_nil_l, rstrip_newlines_app_newline.
  destruct (rstrip_newlines_join (fun l => spaces indent +:+ l) (l :: lines))
    as [Hfix _]; try done.
  intros l'. now rewrite str_app_nil_r.
Qed.

Lemma rstrip_newlines_no_newline_end (s a : string) :
  rstrip_newlines s ≠ a +:+ String (Ascii.ascii_of_N 10) "".
Proof.
  revert a. induction s as [|c s IH]; intros a.
  - destruct a; discriminate.
  - cbn [rstrip_newlines].
    destruct (String.eqb_spec (rstrip_newlines s) "") as [Hs|Hs];
      destruct (N.eqb_spec (ord c) 10) as [Hc|Hc]; cbn [andb].
    + destruct a; discriminate.
    + destruct a as [|x a]; [|rewrite str_app_cons; intros [= _ H]; now apply IH in H].
      rewrite str_app_nil_l. intros [= -> _]. now apply Hc.
    + destruct a as [|x a]; [|rewrite str_app_cons; intros [= _ H]; now apply IH in H].
      rewrite str_app_nil_l. intros [= _ H]. now apply Hs.
    + destruct a as [|x a]; [|rewrite str_app_cons; intros [= _ H]; now apply IH in H].
      rewrite str_app_nil_l. intros [= _ H]. now apply Hs.
Qed.

(** Whatever the text and the indent, the result of [_str_indent]
    does not end with a newline. *)
Theorem str_indent_no_newline_at_end (string_ : string) (indent : Z)
    (a : string) :
  Command._str_indent string_ indent ≠ a +:+ String (Ascii.ascii_of_N 10) "".
Proof. apply rstrip_newlines_no_newline_end. Qed.

End StrIndent.

Lemma str_indent_indents_every_line_witness :
  Command._str_indent
    (join (String (Ascii.ascii_of_N 10) "")
       ["SnapsetName: bootset0"; "Status: Active"; "  Name: root"]) 4
  = join (String (Ascii.ascii_of_N 10) "")
       ["    SnapsetName: bootset0"; "    Status: Active";
        "      Name: root"].
Proof.
  exact (proj1 (str_indent_indents_every_line
                  ["SnapsetName: bootset0"; "Status: Active"; "  Name: root"]
                  4 eq_refl ltac:(discriminate))).
Defined.
